(** * EmailApi: the request validation, templating and dispatch pipeline

    A shallow embedding of [src/app.js] (an Express application relaying
    e-mail through nodemailer) and the properties of its specification.

    Layout: JavaScript values and strings, regular expressions, the e-mail
    validator, the transport factory, the three request handlers, and then
    the theorems. *)

From Stdlib Require Import List Bool Arith NArith Lia String Ascii.
From Stdlib Require Import DecimalString Permutation.
Import ListNotations.

Set Implicit Arguments.
Set Warnings "-register-all".

(* ================================================================== *)
(** ** JavaScript strings *)

(** A JavaScript string is a sequence of UTF-16 code units. *)
Definition code_unit := N.
Definition jsstring := list code_unit.

(** [js "abc"] is the JavaScript string of an ASCII literal. *)
Definition js (s : string) : jsstring :=
  map N_of_ascii (list_ascii_of_string s).
Arguments js s%_string.

Definition cu_eqb : code_unit -> code_unit -> bool := N.eqb.

Fixpoint jsstring_eqb (a b : jsstring) : bool :=
  match a, b with
  | [], [] => true
  | x :: a', y :: b' => cu_eqb x y && jsstring_eqb a' b'
  | _, _ => false
  end.

(** Decimal digits of a natural number: [String(n)] for an array length. *)
Definition js_of_nat (n : nat) : jsstring :=
  js (NilZero.string_of_uint (Nat.to_uint n)).

Definition decimal_digit (c : code_unit) : bool := ((48 <=? c) && (c <=? 57))%N.

(** The units ToString uses to print a number: the digits and [- + . e]. *)
Definition numeral_unit (c : code_unit) : bool :=
  decimal_digit c || existsb (cu_eqb c) (js "-+.e").

(** The texts ToString gives numbers: a numeral such as [42], [-0.5] or
    [1e+21], or an infinity, which a literal too large to represent parses
    to. *)
Definition is_numeral (s : jsstring) : bool :=
  match s with
  | [] => false
  | _ :: _ =>
      forallb numeral_unit s
      || jsstring_eqb s (js "Infinity") || jsstring_eqb s (js "-Infinity")
  end.

Module Chars.
Definition at_sign : code_unit := 64%N.   (* @ *)
Definition dot : code_unit := 46%N.       (* . *)
Definition comma : code_unit := 44%N.     (* , *)
Definition lbrace : code_unit := 123%N.   (* { *)
Definition rbrace : code_unit := 125%N.   (* } *)
Definition dollar : code_unit := 36%N.    (* $ *)
Definition amp : code_unit := 38%N.       (* & *)
Definition backtick : code_unit := 96%N.  (* ` *)
Definition quote : code_unit := 39%N.     (* ' *)
Definition dquote : code_unit := 34%N.    (* the double quote *)
Definition lf : code_unit := 10%N.
End Chars.

(* ================================================================== *)
(** ** JavaScript values

    The values a parsed JSON body hands to the handlers, plus [undefined]
    for an absent field.

    The handlers read a number in two ways only, through ToBoolean and
    through ToString, so a number is given by the text ToString prints
    for it ([0] for both zeros); this covers every number, integer or
    not, exactly as JavaScript prints it.

    An object lists its own properties in the order [Object.keys] gives
    them.  A parsed object has the prototype [Object.prototype] and its
    property values are never functions. *)

Record number := {
  numeral : jsstring;
  numeral_ok : is_numeral numeral = true
}.

(** The number written as a numeral. *)
Definition num (s : string) (ok : is_numeral (js s) = true) : number :=
  {| numeral := js s; numeral_ok := ok |}.
Arguments num s%_string ok.

Inductive jsval :=
| JUndefined
| JNull
| JBool (b : bool)
| JNum (n : number)
| JStr (s : jsstring)
| JArr (l : list jsval)
| JObj (fields : list (jsstring * jsval)).

(** ToBoolean. *)
Definition truthy (v : jsval) : bool :=
  match v with
  | JUndefined | JNull => false
  | JBool b => b
  | JNum n => negb (jsstring_eqb (numeral n) (js "0"))
  | JStr s => match s with [] => false | _ => true end
  | JArr _ => true
  | JObj _ => true
  end.

(** [a || b] *)
Definition js_or (a b : jsval) : jsval := if truthy a then a else b.

(** ** Exceptions

    What a [catch] block of the handlers can receive: a [TypeError] of
    the engine, or the error the mail provider rejects with, of which
    the handlers read the [message]. *)

Inductive exn :=
| TypeError
| ProviderError (message : jsval).

Inductive completion (A : Type) :=
| Normal (a : A)
| Throw (e : exn).
Arguments Throw {A} e.

Definition bind (A B : Type) (c : completion A) (k : A -> completion B)
  : completion B :=
  match c with
  | Normal a => k a
  | Throw e => Throw e
  end.

Notation "x <- c ;; k" := (bind c (fun x => k))
  (at level 61, c at next level, right associativity).

(** Does the object have an own property of this name? *)
Definition has_own (key : jsstring) (fields : list (jsstring * jsval)) : bool :=
  existsb (fun kv => jsstring_eqb key (fst kv)) fields.

(** ToString.  An array prints its elements separated by commas, with
    [null] and [undefined] elements printed as nothing.  An object prints
    as [[object Object]] through the [toString] it inherits; an own
    [toString] property hides that method and, not being a function,
    leaves the object without a primitive value: a [TypeError]. *)
Fixpoint to_string (v : jsval) : completion jsstring :=
  match v with
  | JUndefined => Normal (js "undefined")
  | JNull => Normal (js "null")
  | JBool true => Normal (js "true")
  | JBool false => Normal (js "false")
  | JNum n => Normal (numeral n)
  | JStr s => Normal s
  | JArr l =>
      let elem (x : jsval) : completion jsstring :=
        match x with
        | JUndefined | JNull => Normal []
        | _ => to_string x
        end in
      (fix join (l : list jsval) : completion jsstring :=
         match l with
         | [] => Normal []
         | [x] => elem x
         | x :: l' =>
             s <- elem x ;;
             r <- join l' ;;
             Normal (s ++ Chars.comma :: r)
         end) l
  | JObj fields =>
      if has_own (js "toString") fields
      then Throw TypeError
      else Normal (js "[object Object]")
  end.

(** [Array.isArray] *)
Definition is_array (v : jsval) : bool :=
  match v with JArr _ => true | _ => false end.

(* ================================================================== *)
(** ** Regular expressions

    The fragment of JavaScript regular expressions that [validateEmail]
    uses: character sets, concatenation, alternation and repetition.
    Matching is by Brzozowski derivatives; [lang] is the declarative
    meaning the matcher is proved against. *)

Module Regex.

Inductive regex :=
| RFail
| REps
| RSet (p : code_unit -> bool)
| RCat (r1 r2 : regex)
| RAlt (r1 r2 : regex)
| RStar (r : regex).

(** [r+] *)
Definition RPlus (r : regex) : regex := RCat r (RStar r).

Fixpoint nullable (r : regex) : bool :=
  match r with
  | RFail => false
  | REps => true
  | RSet _ => false
  | RCat r1 r2 => nullable r1 && nullable r2
  | RAlt r1 r2 => nullable r1 || nullable r2
  | RStar _ => true
  end.

Fixpoint deriv (c : code_unit) (r : regex) : regex :=
  match r with
  | RFail => RFail
  | REps => RFail
  | RSet p => if p c then REps else RFail
  | RCat r1 r2 =>
      if nullable r1
      then RAlt (RCat (deriv c r1) r2) (deriv c r2)
      else RCat (deriv c r1) r2
  | RAlt r1 r2 => RAlt (deriv c r1) (deriv c r2)
  | RStar r1 => RCat (deriv c r1) (RStar r1)
  end.

(** Does the whole of [s] match [r]? *)
Fixpoint matches (r : regex) (s : jsstring) : bool :=
  match s with
  | [] => nullable r
  | c :: s' => matches (deriv c r) s'
  end.

Inductive lang : regex -> jsstring -> Prop :=
| LEps : lang REps []
| LSet p c : p c = true -> lang (RSet p) [c]
| LCat r1 r2 s1 s2 : lang r1 s1 -> lang r2 s2 -> lang (RCat r1 r2) (s1 ++ s2)
| LAltL r1 r2 s : lang r1 s -> lang (RAlt r1 r2) s
| LAltR r1 r2 s : lang r2 s -> lang (RAlt r1 r2) s
| LStarNil r : lang (RStar r) []
| LStarApp r s1 s2 : lang r s1 -> lang (RStar r) s2 -> lang (RStar r) (s1 ++ s2).

End Regex.

(** [\s]: the white space and line terminator code units. *)
Definition is_space (c : code_unit) : bool :=
  ((9 <=? c) && (c <=? 13) || (c =? 32) || (c =? 160) || (c =? 5760)
   || (8192 <=? c) && (c <=? 8202) || (c =? 8232) || (c =? 8233)
   || (c =? 8239) || (c =? 8287) || (c =? 12288) || (c =? 65279))%N.

(* ================================================================== *)
(** ** Email validation function *)

(** The class [[^\s@]]. *)
Definition addr_char (c : code_unit) : bool :=
  negb (is_space c) && negb (cu_eqb c Chars.at_sign).

(** [/^[^\s@]+@[^\s@]+\.[^\s@]+$/]: the pattern is anchored at both ends
    and has no flags, so [test] asks whether the whole string matches. *)
Definition emailRegex : Regex.regex :=
  Regex.RCat (Regex.RPlus (Regex.RSet addr_char))
    (Regex.RCat (Regex.RSet (cu_eqb Chars.at_sign))
       (Regex.RCat (Regex.RPlus (Regex.RSet addr_char))
          (Regex.RCat (Regex.RSet (cu_eqb Chars.dot))
             (Regex.RPlus (Regex.RSet addr_char))))).

(** [emailRegex.test(email)]: [test] converts its argument to a string,
    which may throw. *)
Definition validateEmail (email : jsval) : completion bool :=
  s <- to_string email ;;
  Normal (Regex.matches emailRegex s).

(* ================================================================== *)
(** ** Property lookup on an object literal

    [config[service]] and [templates[template]] read a property of an
    object literal under a key taken from the request.  Such a literal
    has its own properties and, behind them, those every object inherits
    from [Object.prototype]. *)

Definition object_prototype_names : list jsstring :=
  map js
    [ "constructor"; "__defineGetter__"; "__defineSetter__";
      "hasOwnProperty"; "__lookupGetter__"; "__lookupSetter__";
      "isPrototypeOf"; "propertyIsEnumerable"; "toString"; "valueOf";
      "__proto__"; "toLocaleString" ]%string.

Fixpoint assoc (A : Type) (key : jsstring) (l : list (jsstring * A)) : option A :=
  match l with
  | [] => None
  | (k, a) :: l' => if jsstring_eqb key k then Some a else assoc key l'
  end.

(** What [obj[key]] evaluates to: an own property, a function or object
    inherited from [Object.prototype] (always truthy), or [undefined]. *)
Inductive property (A : Type) :=
| Own (a : A)
| Inherited (name : jsstring)
| Absent.
Arguments Inherited {A} name.
Arguments Absent {A}.

Definition get_property (A : Type) (obj : list (jsstring * A)) (key : jsstring)
  : property A :=
  match assoc key obj with
  | Some a => Own a
  | None =>
      if existsb (jsstring_eqb key) object_prototype_names
      then Inherited key
      else Absent
  end.

(** [Object.keys] *)
Definition object_keys (A : Type) (obj : list (jsstring * A)) : list jsstring :=
  map fst obj.

(* ================================================================== *)
(** ** Create transporter based on service *)

(** [process.env]: a variable is a string or is not set. *)
Definition environment := string -> option jsstring.

Definition getenv (env : environment) (name : string) : jsval :=
  match env name with
  | Some s => JStr s
  | None => JUndefined
  end.
Arguments getenv env name%_string.

Record auth := { user : jsval; pass : jsval }.

Inductive transport_options :=
| ServiceOptions (service : jsstring) (a : auth)
| HostOptions (host port : jsval) (secure : bool) (a : auth).

(** [v === 'true'] *)
Definition is_true_string (v : jsval) : bool :=
  match v with
  | JStr s => jsstring_eqb s (js "true")
  | _ => false
  end.

Definition gmail_profile (env : environment) : transport_options :=
  ServiceOptions (js "gmail")
    {| user := getenv env "GMAIL_USER"; pass := getenv env "GMAIL_APP_PASSWORD" |}.

Definition outlook_profile (env : environment) : transport_options :=
  ServiceOptions (js "hotmail")
    {| user := getenv env "OUTLOOK_USER"; pass := getenv env "OUTLOOK_PASSWORD" |}.

Definition smtp_profile (env : environment) : transport_options :=
  HostOptions (getenv env "SMTP_HOST")
    (js_or (getenv env "SMTP_PORT") (JNum (num "587" eq_refl)))
    (is_true_string (getenv env "SMTP_SECURE"))
    {| user := getenv env "SMTP_USER"; pass := getenv env "SMTP_PASSWORD" |}.

Definition config (env : environment) : list (jsstring * transport_options) :=
  [ (js "gmail", gmail_profile env);
    (js "outlook", outlook_profile env);
    (js "smtp", smtp_profile env) ].

(** The transport client, identified by the argument it was built from
    with [nodemailer.createTransport]: a provider profile, or the value
    of a property [config] inherits. *)
Inductive transporter :=
| FromProfile (options : transport_options)
| FromInherited (name : jsstring).

(** The parameter defaults to ['gmail'] when [undefined] is passed.
    [config[service]] converts [service] to a property key, which may
    throw. *)
Definition createTransporter (env : environment) (service : jsval)
  : completion transporter :=
  let service := match service with JUndefined => JStr (js "gmail") | _ => service end in
  key <- to_string service ;;
  Normal
    match get_property (config env) key with
    | Own options => FromProfile options
    | Inherited name => FromInherited name
    | Absent => FromProfile (gmail_profile env)      (* [|| config.gmail] *)
    end.

(* ================================================================== *)
(** ** The mail provider and the trace of a request *)

(** The object given to [sendMail].  A property the handler does not set
    is [undefined]. *)
Record mail_options := {
  mail_from : jsval;
  mail_to : jsval;
  mail_subject : jsval;
  mail_text : jsval;
  mail_html : jsval;
  mail_attachments : jsval
}.

Record send_info := { messageId : jsval; response : jsval }.

(** [sendMail] resolves with an info object or rejects with an error
    that has the given [message]. *)
Inductive send_outcome :=
| Resolved (info : send_info)
| Rejected (message : jsval).

(** The provider decides each call from the client, the number of calls
    the client served before, and the mail. *)
Definition provider := transporter -> nat -> mail_options -> send_outcome.

Inductive event :=
| CreateTransport (t : transporter)
| SendMail (t : transporter) (m : mail_options).

Definition is_send (e : event) : bool :=
  match e with SendMail _ _ => true | CreateTransport _ => false end.

Definition sends (trace : list event) : nat := List.length (filter is_send trace).

(* ================================================================== *)
(** ** Responses *)

(** [error.message] of a caught exception: the message of a provider
    error, or the engine's text for a [TypeError]. *)
Inductive details :=
| Message (m : jsval)
| TypeErrorMessage.

Definition message_of (e : exn) : details :=
  match e with
  | TypeError => TypeErrorMessage
  | ProviderError m => Message m
  end.

Record bulk_result := { result_email : jsval; result_messageId : jsval }.
Record bulk_error := { error_email : jsval; error_text : jsval }.

Inductive body :=
| ErrorBody (error : jsstring)
| FailureBody (error : jsstring) (d : details)
| InvalidEmailsBody (error : jsstring) (invalidEmails : list jsval)
| TemplateNotFoundBody (error : jsstring) (availableTemplates : list jsstring)
| SentBody (message : jsstring) (id resp : jsval)
| BulkBody (message : jsstring) (results : list bulk_result) (errors : list bulk_error)
| TemplateSentBody (message : jsstring) (id template : jsval).

Record http_response := { status : nat; json : body }.

Definition respond (code : nat) (b : body) : http_response :=
  {| status := code; json := b |}.

(** The [catch] block of a handler: 500 with the handler's error text and
    the message of what was thrown; [trace] is what had happened by
    then. *)
Definition caught (error : jsstring) (e : exn) (trace : list event)
  : http_response * list event :=
  (respond 500 (FailureBody error (message_of e)), trace).

(** [from || process.env.DEFAULT_FROM_EMAIL || process.env.GMAIL_USER] *)
Definition sender (env : environment) (from : jsval) : jsval :=
  js_or (js_or from (getenv env "DEFAULT_FROM_EMAIL")) (getenv env "GMAIL_USER").

(** A destructuring default: used when the field is [undefined]. *)
Definition default_to (d v : jsval) : jsval :=
  match v with JUndefined => d | _ => v end.

(* ================================================================== *)
(** ** Send single email: [POST /send-email] *)

Module SendEmail.

(** The fields the handler destructures from [req.body]; an absent
    field is [JUndefined]. *)
Record request := {
  to : jsval;
  subject : jsval;
  text : jsval;
  html : jsval;
  from : jsval;
  service : jsval;
  attachments : jsval
}.

Definition missing_fields : jsstring :=
  js "Missing required fields: to, subject, and either text or html".

Definition failed : jsstring := js "Failed to send email".

(** The [try] block.  Whatever throws in it does so before the client
    is built, except the provider's rejection of the send. *)
Definition attempt (env : environment) (send : provider) (req : request)
  : completion (http_response * list event) :=
  let service := default_to (JStr (js "gmail")) (service req) in
  let attachments := default_to (JArr []) (attachments req) in
  if negb (truthy (to req)) || negb (truthy (subject req))
     || (negb (truthy (text req)) && negb (truthy (html req)))
  then Normal (respond 400 (ErrorBody missing_fields), [])
  else
    valid_to <- validateEmail (to req) ;;
    if negb valid_to
    then Normal (respond 400 (ErrorBody (js "Invalid recipient email address")), [])
    else
      (* [from && !validateEmail(from)] *)
      invalid_from <- (if truthy (from req)
                       then (valid_from <- validateEmail (from req) ;;
                             Normal (negb valid_from))
                       else Normal false) ;;
      if invalid_from
      then Normal (respond 400 (ErrorBody (js "Invalid sender email address")), [])
      else
        transporter <- createTransporter env service ;;
        let mailOptions :=
          {| mail_from := sender env (from req);
             mail_to := to req;
             mail_subject := subject req;
             mail_text := text req;
             mail_html := html req;
             mail_attachments := attachments |} in
        let trace := [CreateTransport transporter; SendMail transporter mailOptions] in
        Normal
          match send transporter 0 mailOptions with
          | Resolved info =>
              (respond 200
                 (SentBody (js "Email sent successfully") (messageId info)
                    (response info)),
               trace)
          | Rejected message => caught failed (ProviderError message) trace
          end.

Definition handler (env : environment) (send : provider) (req : request)
  : http_response * list event :=
  match attempt env send req with
  | Normal answer => answer
  | Throw e => caught failed e []
  end.

End SendEmail.

(* ================================================================== *)
(** ** Send bulk emails: [POST /send-bulk-email] *)

Module SendBulkEmail.

Record request := {
  recipients : jsval;
  subject : jsval;
  text : jsval;
  html : jsval;
  from : jsval;
  service : jsval
}.

Definition recipients_required : jsstring :=
  js "Recipients array is required and cannot be empty".
Definition missing_fields : jsstring :=
  js "Missing required fields: subject, and either text or html".
Definition invalid_addresses : jsstring :=
  js "Invalid email addresses found".
Definition too_many : jsstring :=
  js "Maximum 50 recipients allowed per bulk email".

(** The elements of an array; nothing for a value that is not one. *)
Definition elements (v : jsval) : list jsval :=
  match v with JArr l => l | _ => [] end.

(** The two lists the loop pushes to, and the calls made so far. *)
Record loop_state := {
  results : list bulk_result;
  errors : list bulk_error;
  trace : list event
}.

(** One iteration of [for (const recipient of recipients)]: the send is
    awaited inside its own [try]/[catch]. *)
Definition send_one (send : provider) (transporter : transporter)
    (mail_for : jsval -> mail_options) (st : loop_state) (recipient : jsval)
  : loop_state :=
  let mailOptions := mail_for recipient in
  let trace' := trace st ++ [SendMail transporter mailOptions] in
  match send transporter (sends (trace st)) mailOptions with
  | Resolved info =>
      {| results := results st ++
           [{| result_email := recipient; result_messageId := messageId info |}];
         errors := errors st;
         trace := trace' |}
  | Rejected message =>
      {| results := results st;
         errors := errors st ++
           [{| error_email := recipient; error_text := message |}];
         trace := trace' |}
  end.

Fixpoint send_each (send : provider) (transporter : transporter)
    (mail_for : jsval -> mail_options) (recipients : list jsval) (st : loop_state)
  : loop_state :=
  match recipients with
  | [] => st
  | recipient :: rest =>
      send_each send transporter mail_for rest
        (send_one send transporter mail_for st recipient)
  end.

Definition completed (sent failed : nat) : jsstring :=
  js "Bulk email completed. " ++ js_of_nat sent ++ js " sent, "
    ++ js_of_nat failed ++ js " failed".

Definition failed : jsstring := js "Failed to send bulk emails".

(** [recipients.filter(email => !validateEmail(email))]: the entries are
    tested in order, and a test that throws ends the filter. *)
Fixpoint invalid_entries (recipients : list jsval) : completion (list jsval) :=
  match recipients with
  | [] => Normal []
  | email :: rest =>
      valid <- validateEmail email ;;
      others <- invalid_entries rest ;;
      Normal (if negb valid then email :: others else others)
  end.

(** The outer [try] block.  What throws in it does so before the client
    is built; a send that fails is caught inside the loop. *)
Definition attempt (env : environment) (send : provider) (req : request)
  : completion (http_response * list event) :=
  let service := default_to (JStr (js "gmail")) (service req) in
  let recipients := recipients req in
  if negb (truthy recipients) || negb (is_array recipients)
     || (List.length (elements recipients) =? 0)
  then Normal (respond 400 (ErrorBody recipients_required), [])
  else if negb (truthy (subject req))
          || (negb (truthy (text req)) && negb (truthy (html req)))
  then Normal (respond 400 (ErrorBody missing_fields), [])
  else
    invalidEmails <- invalid_entries (elements recipients) ;;
    if 0 <? List.length invalidEmails
    then Normal (respond 400 (InvalidEmailsBody invalid_addresses invalidEmails), [])
    else if 50 <? List.length (elements recipients)
    then Normal (respond 400 (ErrorBody too_many), [])
    else
      transporter <- createTransporter env service ;;
      let mail_for (recipient : jsval) :=
        {| mail_from := sender env (from req);
           mail_to := recipient;
           mail_subject := subject req;
           mail_text := text req;
           mail_html := html req;
           mail_attachments := JUndefined |} in
      let st :=
        send_each send transporter mail_for (elements recipients)
          {| results := []; errors := []; trace := [CreateTransport transporter] |} in
      Normal
        (respond 200
           (BulkBody (completed (List.length (results st)) (List.length (errors st)))
              (results st) (errors st)),
         trace st).

Definition handler (env : environment) (send : provider) (req : request)
  : http_response * list event :=
  match attempt env send req with
  | Normal answer => answer
  | Throw e => caught failed e []
  end.

End SendBulkEmail.

(* ================================================================== *)
(** ** Global replacement with a regular expression built from a key

    [new RegExp(`{{${key}}}`, 'g')] splices the key into the pattern
    source unescaped.  The fragment modelled here is the patterns that
    are a sequence of one-unit atoms: an ordinary character stands for
    itself and [.] for any unit but a line terminator.  A source that uses
    anything else of the pattern syntax (an escape, a group, a class, an
    alternation, an assertion, a quantifier) is outside the fragment and
    compiles to [None]. *)

Module Replace.

(** One atom: the set of code units it accepts. *)
Definition atom := code_unit -> bool.
Definition pattern := list atom.

Definition is_digit (c : code_unit) : bool := ((48 <=? c) && (c <=? 57))%N.

Definition is_line_terminator (c : code_unit) : bool :=
  ((c =? 10) || (c =? 13) || (c =? 8232) || (c =? 8233))%N.

(** [^ $ \ * + ? ( ) [ |]: syntax with a meaning beyond the fragment. *)
Definition beyond_fragment (c : code_unit) : bool :=
  existsb (cu_eqb c) (js "^$\*+?()[|").

Fixpoint skip_digits (s : jsstring) : jsstring :=
  match s with
  | c :: s' => if is_digit c then skip_digits s' else s
  | [] => []
  end.

(** Does the text after a [{] complete a quantifier [{n}], [{n,}] or
    [{n,m}]?  A brace that does not is an ordinary character. *)
Definition braced_quantifier (s : jsstring) : bool :=
  match s with
  | c :: _ =>
      is_digit c &&
      match skip_digits s with
      | d :: r =>
          cu_eqb d Chars.rbrace
          || (cu_eqb d Chars.comma
              && match skip_digits r with
                 | e :: _ => cu_eqb e Chars.rbrace
                 | [] => false
                 end)
      | [] => false
      end
  | [] => false
  end.

Fixpoint compile (source : jsstring) : option pattern :=
  match source with
  | [] => Some []
  | c :: rest =>
      if beyond_fragment c then None
      else if cu_eqb c Chars.lbrace && braced_quantifier rest then None
      else
        match compile rest with
        | Some p =>
            Some ((if cu_eqb c Chars.dot
                   then (fun u => negb (is_line_terminator u))
                   else cu_eqb c) :: p)
        | None => None
        end
  end.

(** A match of the pattern at the start of [s]: the matched text and
    what follows it. *)
Fixpoint match_prefix (p : pattern) (s : jsstring) : option (jsstring * jsstring) :=
  match p with
  | [] => Some ([], s)
  | a :: p' =>
      match s with
      | c :: s' =>
          if a c
          then match match_prefix p' s' with
               | Some (m, after) => Some (c :: m, after)
               | None => None
               end
          else None
      | [] => None
      end
  end.

(** The replacement text for one match: [$$] is a dollar sign, [$&] the
    matched text, [$`] the text before the match and [$'] the text
    after it.  The patterns of the fragment capture nothing, so any
    other [$] stands for itself. *)
Fixpoint get_substitution (matched before after replacement : jsstring) : jsstring :=
  match replacement with
  | [] => []
  | c :: r =>
      if cu_eqb c Chars.dollar then
        match r with
        | d :: r' =>
            if cu_eqb d Chars.dollar
            then Chars.dollar :: get_substitution matched before after r'
            else if cu_eqb d Chars.amp
            then matched ++ get_substitution matched before after r'
            else if cu_eqb d Chars.backtick
            then before ++ get_substitution matched before after r'
            else if cu_eqb d Chars.quote
            then after ++ get_substitution matched before after r'
            else Chars.dollar :: get_substitution matched before after r
        | [] => [Chars.dollar]
        end
      else c :: get_substitution matched before after r
  end.

(** The scan of [str.replace(regex, replacement)] for a global regex:
    matches are taken left to right and do not overlap.  [seen] is the
    text already passed, last unit first; [skip] counts the units of the
    current match still to pass. *)
Fixpoint replace_from (p : pattern) (replacement : jsstring)
    (seen : jsstring) (skip : nat) (s : jsstring) : jsstring :=
  match s with
  | [] =>
      match skip, match_prefix p [] with
      | O, Some (m, after) => get_substitution m (rev seen) after replacement
      | _, _ => []
      end
  | c :: s' =>
      match skip with
      | S k => replace_from p replacement (c :: seen) k s'
      | O =>
          match match_prefix p s with
          | Some (m, after) =>
              get_substitution m (rev seen) after replacement ++
              match m with
              | [] => c :: replace_from p replacement (c :: seen) 0 s'
              | _ :: m' => replace_from p replacement (c :: seen) (List.length m') s'
              end
          | None => c :: replace_from p replacement (c :: seen) 0 s'
          end
      end
  end.

Definition replace (p : pattern) (replacement : jsstring) (s : jsstring) : jsstring :=
  replace_from p replacement [] 0 s.

End Replace.

(* ================================================================== *)
(** ** Simple template system *)

Module Templates.

Record template := { subject : jsstring; html : jsstring }.

(** The lines of a template literal, joined by line feeds. *)
Fixpoint lines (l : list jsstring) : jsstring :=
  match l with
  | [] => []
  | [x] => x
  | x :: l' => x ++ Chars.lf :: lines l'
  end.

Definition welcome_template : template :=
  {| subject := js "Welcome to {{appName}}!";
     html := lines
       [ [];
         js "          <h1>Welcome {{name}}!</h1>";
         js "          <p>Thank you for joining {{appName}}. We're excited to have you on board!</p>";
         js "          <p>Best regards,<br>The {{appName}} Team</p>";
         js "        " ] |}.

Definition art_submission_template : template :=
  {| subject := js "New Order Received for Your Artwork on Art_Gallery!";
     html := lines
       [ [];
         js "          <h2>Hello Seller</h2>";
         [];
         js "          <p>Great news! You've received a new order for your artwork on <strong>Art_Gallery</strong>.</p>";
         [];
         js "          <h3>" ++ [240; 376; 381; 168]%N ++ js " Artwork Details:</h3>";
         js "          <img src=" ++ [Chars.dquote] ++ js "{{imageUrl}}" ++
           [Chars.dquote] ++ js " alt=" ++ [Chars.dquote] ++ js "Artwork image" ++
           [Chars.dquote] ++ js " style=" ++ [Chars.dquote] ++
           js "max-width: 100%; height: auto; border: 1px solid #ddd; padding: 4px;" ++
           [Chars.dquote] ++ js " />";
         [];
         js "          <ul>";
         js "            <li><strong>Description:</strong> {{description}}</li>";
         js "            <li><strong>Dimensions:</strong> {{dimensions}}</li>";
         js "            <li><strong>Medium:</strong> {{medium}}</li>";
         js "          </ul>";
         [];
         js "          <h3>" ++ [240; 376; 167; 190]%N ++ js " Buyer Details:</h3>";
         js "          <ul>";
         js "            <li><strong>Full Name:</strong> {{buyerName}}</li>";
         js "            <li><strong>Email:</strong> {{buyerEmail}}</li>";
         js "            <li><strong>Shipping Address:</strong> {{address}}</li>";
         js "          </ul>";
         js "        " ] |}.

Definition reset_password_template : template :=
  {| subject := js "Password Reset Request";
     html := lines
       [ [];
         js "          <h1>Password Reset</h1>";
         js "          <p>Hi {{name}},</p>";
         js "          <p>You requested a password reset. Click the link below to reset your password:</p>";
         js "          <p><a href=" ++ [Chars.dquote] ++ js "{{resetLink}}" ++
           [Chars.dquote] ++ js ">Reset Password</a></p>";
         js "          <p>If you didn't request this, please ignore this email.</p>";
         js "        " ] |}.

Definition notification_template : template :=
  {| subject := js "{{subject}}";
     html := lines
       [ [];
         js "          <h1>{{title}}</h1>";
         js "          <p>{{message}}</p>";
         js "          <p>Best regards,<br>{{senderName}}</p>";
         js "        " ] |}.

Definition templates : list (jsstring * template) :=
  [ (js "welcome", welcome_template);
    (js "art_submission", art_submission_template);
    (js "reset_password", reset_password_template);
    (js "notification", notification_template) ].

(** Replace variables in template *)

(** [`{{${key}}}`] *)
Definition token (key : jsstring) : jsstring := js "{{" ++ key ++ js "}}".

(** [variables[key]] *)
Definition variable (variables : list (jsstring * jsval)) (key : jsstring) : jsval :=
  match assoc key variables with
  | Some v => v
  | None => JUndefined
  end.

(** [variables[key] || ''], which [replace] converts to a string; the
    conversion may throw. *)
Definition replacement (variables : list (jsstring * jsval)) (key : jsstring)
  : completion jsstring :=
  to_string (js_or (variable variables key) (JStr [])).

(** The body of the [forEach] callback, on the pair of strings the
    loop updates: the pattern is built, then the value is converted,
    then both strings are rewritten.  [None] when the key's pattern is
    outside the modelled fragment; a conversion that throws ends the
    loop. *)
Definition substitute (variables : list (jsstring * jsval))
    (acc : option (completion (jsstring * jsstring))) (key : jsstring)
  : option (completion (jsstring * jsstring)) :=
  match acc with
  | Some (Normal (subject, html)) =>
      match Replace.compile (token key) with
      | Some regex =>
          match replacement variables key with
          | Normal value =>
              Some (Normal (Replace.replace regex value subject,
                            Replace.replace regex value html))
          | Throw e => Some (Throw e)
          end
      | None => None
      end
  | Some (Throw e) => Some (Throw e)
  | None => None
  end.

Definition render (variables : list (jsstring * jsval)) (t : template)
  : option (completion (jsstring * jsstring)) :=
  fold_left (substitute variables) (object_keys variables)
    (Some (Normal (subject t, html t))).

End Templates.

(* ================================================================== *)
(** ** Send email with template: [POST /send-template-email] *)

Module SendTemplateEmail.

Import Templates.

Record request := {
  to : jsval;
  template : jsval;
  variables : jsval;
  service : jsval;
  from : jsval
}.

Definition missing_fields : jsstring := js "Missing required fields: to, template".
Definition template_not_found : jsstring := js "Template not found".
Definition failed : jsstring := js "Failed to send template email".

(** The index keys ["0"], ["1"], ... of a string or an array, paired
    with what they hold. *)
Definition indexed (A : Type) (l : list A) : list (jsstring * A) :=
  combine (map js_of_nat (seq 0 (List.length l))) l.

(** The own enumerable properties [Object.keys(variables)] lists and
    [variables[key]] reads: the fields of an object, the elements of an
    array, the units of a string, nothing for a boolean or a number;
    [Object.keys] throws on [null] and [undefined]. *)
Definition own_properties (v : jsval) : completion (list (jsstring * jsval)) :=
  match v with
  | JUndefined | JNull => Throw TypeError
  | JBool _ | JNum _ => Normal []
  | JStr s => Normal (indexed (map (fun c => JStr [c]) s))
  | JArr l => Normal (indexed l)
  | JObj fields => Normal fields
  end.

(** The send and the response that end the [try] block. *)
Definition dispatch (env : environment) (send : provider) (req : request)
    (subject html : jsval) : completion (http_response * list event) :=
  let service := default_to (JStr (js "gmail")) (service req) in
  transporter <- createTransporter env service ;;
  let mailOptions :=
    {| mail_from := sender env (from req);
       mail_to := to req;
       mail_subject := subject;
       mail_text := JUndefined;
       mail_html := html;
       mail_attachments := JUndefined |} in
  let trace := [CreateTransport transporter; SendMail transporter mailOptions] in
  Normal
    match send transporter 0 mailOptions with
    | Resolved info =>
        (respond 200
           (TemplateSentBody (js "Template email sent successfully")
              (messageId info) (template req)),
         trace)
    | Rejected message => caught failed (ProviderError message) trace
    end.

(** The [try] block; [None] when a key of [variables] takes the
    rendering outside the modelled fragment of regular expressions.
    What throws in it does so before the client is built, except the
    provider's rejection of the send. *)
Definition attempt (env : environment) (send : provider) (req : request)
  : option (completion (http_response * list event)) :=
  let variables := default_to (JObj []) (variables req) in
  if negb (truthy (to req)) || negb (truthy (template req))
  then Some (Normal (respond 400 (ErrorBody missing_fields), []))
  else
    match validateEmail (to req) with
    | Throw e => Some (Throw e)
    | Normal valid_to =>
        if negb valid_to
        then Some (Normal (respond 400
                             (ErrorBody (js "Invalid recipient email address")), []))
        else
          (* [templates[template]] converts [template] to a property key *)
          match to_string (template req) with
          | Throw e => Some (Throw e)
          | Normal name =>
              match get_property templates name with
              | Absent =>
                  Some (Normal (respond 400
                                  (TemplateNotFoundBody template_not_found
                                     (object_keys templates)),
                                []))
              | Own selectedTemplate =>
                  match own_properties variables with
                  | Throw e => Some (Throw e)
                  | Normal properties =>
                      match render properties selectedTemplate with
                      | Some (Normal (subject, html)) =>
                          Some (dispatch env send req (JStr subject) (JStr html))
                      | Some (Throw e) => Some (Throw e)
                      | None => None
                      end
                  end
              | Inherited _ =>
                  (* [selectedTemplate.subject] and [.html] are [undefined]:
                     the first [subject.replace] throws a TypeError; with
                     no key to replace, [undefined] is what is sent. *)
                  match own_properties variables with
                  | Throw e => Some (Throw e)
                  | Normal properties =>
                      match object_keys properties with
                      | [] => Some (dispatch env send req JUndefined JUndefined)
                      | key :: _ =>
                          match Replace.compile (token key) with
                          | Some _ => Some (Throw TypeError)
                          | None => None
                          end
                      end
                  end
              end
          end
    end.

Definition handler (env : environment) (send : provider) (req : request)
  : option (http_response * list event) :=
  match attempt env send req with
  | Some (Normal answer) => Some answer
  | Some (Throw e) => Some (caught failed e [])
  | None => None
  end.

End SendTemplateEmail.

(* ================================================================== *)
(** * Vocabulary of the specification *)

(** The address pattern in words: characters that are neither white
    space nor [@], then [@], then such characters, then a dot, then such
    characters, each run non-empty. *)
Definition address_run (s : jsstring) : Prop :=
  s <> [] /\ Forall (fun c => addr_char c = true) s.

Definition address_shape (s : jsstring) : Prop :=
  exists a b c,
    s = a ++ Chars.at_sign :: b ++ Chars.dot :: c
    /\ address_run a /\ address_run b /\ address_run c.

(** The three recognised provider names. *)
Definition provider_names : list jsstring := [js "gmail"; js "outlook"; js "smtp"].

Definition is_rejected (o : send_outcome) : bool :=
  match o with Rejected _ => true | Resolved _ => false end.

(** The validation gates of the bulk handler, in the order it tries
    them: the recipients array, the subject and body, the addresses; the
    size limit comes last. *)
Module BulkGates.

Import SendBulkEmail.

Definition gate1 (req : request) : bool :=
  match recipients req with JArr (_ :: _) => true | _ => false end.

Definition gate2 (req : request) : bool :=
  truthy (subject req) && (truthy (text req) || truthy (html req)).

Definition invalid (req : request) : completion (list jsval) :=
  invalid_entries (elements (recipients req)).

End BulkGates.

(** Templates as the specification sees them: ordinary text with
    [{{key}}] placeholders in it. *)
Module Placeholders.

Import Templates.

Definition is_brace (c : code_unit) : bool :=
  cu_eqb c Chars.lbrace || cu_eqb c Chars.rbrace.

Definition brace_free (s : jsstring) : bool :=
  forallb (fun c => negb (is_brace c)) s.

Definition dollar_free (s : jsstring) : bool :=
  forallb (fun c => negb (cu_eqb c Chars.dollar)) s.

(** A unit that stands for itself in a pattern. *)
Definition literal_unit (c : code_unit) : bool :=
  negb (Replace.beyond_fragment c) && negb (cu_eqb c Chars.dot).

(** A key with no brace and no pattern syntax in it, and which does not
    turn the inner braces of its token into a quantifier. *)
Definition plain_key (key : jsstring) : bool :=
  brace_free key && forallb literal_unit key
  && negb (Replace.braced_quantifier (key ++ js "}}")).

(** A replacement text with no brace and no [$] in it. *)
Definition plain_value (value : jsstring) : bool :=
  brace_free value && dollar_free value.

(** The value of the key converts to such a text. *)
Definition plain_replacement (variables : list (jsstring * jsval))
    (key : jsstring) : bool :=
  match replacement variables key with
  | Normal value => plain_value value
  | Throw _ => false
  end.

(** The text a key is replaced with, when its value converts to one. *)
Definition value_text (variables : list (jsstring * jsval)) (key : jsstring)
  : jsstring :=
  match replacement variables key with
  | Normal value => value
  | Throw _ => []
  end.

Inductive segment :=
| Text (c : code_unit)
| Placeholder (key : jsstring).

Definition segment_ok (seg : segment) : bool :=
  match seg with
  | Text c => negb (is_brace c)
  | Placeholder key => brace_free key
  end.

Definition segment_text (seg : segment) : jsstring :=
  match seg with
  | Text c => [c]
  | Placeholder key => token key
  end.

Definition flatten (segs : list segment) : jsstring :=
  flat_map segment_text segs.

(** Splitting a string into segments, read from its end: after the
    closing braces comes the key, then the opening braces. *)
Inductive scan_state :=
| Outside
| Closing
| InKey (key : jsstring)
| Opening (key : jsstring).

Definition scan_step (c : code_unit) (st : scan_state) (segs : list segment)
  : option (scan_state * list segment) :=
  match st with
  | Outside =>
      if cu_eqb c Chars.rbrace then Some (Closing, segs)
      else if cu_eqb c Chars.lbrace then None
      else Some (Outside, Text c :: segs)
  | Closing =>
      if cu_eqb c Chars.rbrace then Some (InKey [], segs) else None
  | InKey key =>
      if cu_eqb c Chars.lbrace then Some (Opening key, segs)
      else if cu_eqb c Chars.rbrace then None
      else Some (InKey (c :: key), segs)
  | Opening key =>
      if cu_eqb c Chars.lbrace then Some (Outside, Placeholder key :: segs)
      else None
  end.

Fixpoint scan (s : jsstring) : option (scan_state * list segment) :=
  match s with
  | [] => Some (Outside, [])
  | c :: s' =>
      match scan s' with
      | Some (st, segs) => scan_step c st segs
      | None => None
      end
  end.

Definition segments (s : jsstring) : option (list segment) :=
  match scan s with
  | Some (Outside, segs) => Some segs
  | _ => None
  end.

(** Every brace of the string belongs to a placeholder [{{key}}] whose
    key has no brace. *)
Definition well_formed (s : jsstring) : bool :=
  match segments s with Some _ => true | None => false end.

(** What a scan of [s] that ends in state [st] with segments [segs] has
    read. *)
Definition scan_invariant (s : jsstring) (st : scan_state) (segs : list segment)
  : Prop :=
  match st with
  | Outside => s = flatten segs
  | Closing => s = Chars.rbrace :: flatten segs
  | InKey key =>
      brace_free key = true
      /\ s = key ++ [Chars.rbrace; Chars.rbrace] ++ flatten segs
  | Opening key =>
      brace_free key = true
      /\ s = Chars.lbrace :: key ++ [Chars.rbrace; Chars.rbrace] ++ flatten segs
  end.

(** Filling the placeholders of one key with a value. *)
Definition fill (key value : jsstring) (seg : segment) : list segment :=
  match seg with
  | Placeholder k => if jsstring_eqb k key then map Text value else [seg]
  | Text _ => [seg]
  end.

Definition fill_all (variables : list (jsstring * jsval)) (keys : list jsstring)
    (segs : list segment) : list segment :=
  fold_left (fun acc key => flat_map (fill key (value_text variables key)) acc)
    keys segs.

Fixpoint is_prefix (a b : jsstring) : bool :=
  match a, b with
  | [], _ => true
  | x :: a', y :: b' => cu_eqb x y && is_prefix a' b'
  | _ :: _, [] => false
  end.

(** Does [needle] occur in [hay]? *)
Fixpoint occurs (needle hay : jsstring) : bool :=
  is_prefix needle hay
  || match hay with
     | [] => false
     | _ :: hay' => occurs needle hay'
     end.

(** No key is a substring of the token of another key. *)
Definition disjoint_tokens (keys : list jsstring) : bool :=
  forallb (fun k1 =>
    forallb (fun k2 => jsstring_eqb k1 k2 || negb (occurs k1 (token k2))) keys) keys.

End Placeholders.

(** Values that are neither strings, arrays nor objects. *)
Definition non_string_scalar (v : jsval) : bool :=
  match v with
  | JUndefined | JNull | JBool _ | JNum _ => true
  | JStr _ | JArr _ | JObj _ => false
  end.


(** A test of an address that returns [true]. *)
Definition accepted (c : completion bool) : bool :=
  match c with
  | Normal true => true
  | _ => false
  end.

(** What the handlers are expected to pass on, spelled out: the
    selector with its default, the attachments and the variable mapping
    with theirs, and the sender, which is [from] when truthy, else [DEFAULT_FROM_EMAIL] when
    set and not empty, else [GMAIL_USER]. *)
Module Expected.

Definition selector (service : jsval) : jsval :=
  match service with
  | JUndefined => JStr (js "gmail")
  | _ => service
  end.

Definition attachments (a : jsval) : jsval :=
  match a with
  | JUndefined => JArr []
  | _ => a
  end.

Definition mapping (variables : jsval) : jsval :=
  match variables with
  | JUndefined => JObj []
  | _ => variables
  end.

Definition sender (env : environment) (from : jsval) : jsval :=
  if truthy from then from
  else match env "DEFAULT_FROM_EMAIL"%string with
       | Some (c :: d) => JStr (c :: d)
       | _ => match env "GMAIL_USER"%string with
              | Some u => JStr u
              | None => JUndefined
              end
       end.

(** [`Bulk email completed. ${sent} sent, ${failed} failed`] *)
Definition summary (sent failed : nat) : jsstring :=
  js "Bulk email completed. "
  ++ js (NilZero.string_of_uint (Nat.to_uint sent)) ++ js " sent, "
  ++ js (NilZero.string_of_uint (Nat.to_uint failed)) ++ js " failed".

End Expected.

(** What a single send request must satisfy to get past validation, and
    the mail it then sends. *)
Module SingleGates.

Import SendEmail.

Definition present (req : request) : bool :=
  truthy (to req) && truthy (subject req)
  && (truthy (text req) || truthy (html req)).

Definition valid (req : request) : bool :=
  present req && accepted (validateEmail (to req))
  && (negb (truthy (from req)) || accepted (validateEmail (from req))).

Definition mail (env : environment) (req : request) : mail_options :=
  {| mail_from := Expected.sender env (from req);
     mail_to := to req;
     mail_subject := subject req;
     mail_text := text req;
     mail_html := html req;
     mail_attachments := Expected.attachments (attachments req) |}.

End SingleGates.

(** The mail a bulk request sends to one recipient, and the recipients
    whose send, numbered from [i], the provider resolves or rejects. *)
Module BulkMail.

Import SendBulkEmail.

Definition mail (env : environment) (req : request) (recipient : jsval)
  : mail_options :=
  {| mail_from := Expected.sender env (from req);
     mail_to := recipient;
     mail_subject := subject req;
     mail_text := text req;
     mail_html := html req;
     mail_attachments := JUndefined |}.

Fixpoint delivered (send : provider) (t : transporter)
    (mail : jsval -> mail_options) (i : nat) (l : list jsval) : list jsval :=
  match l with
  | [] => []
  | r :: l' =>
      if is_rejected (send t i (mail r))
      then delivered send t mail (S i) l'
      else r :: delivered send t mail (S i) l'
  end.

Fixpoint refused (send : provider) (t : transporter)
    (mail : jsval -> mail_options) (i : nat) (l : list jsval) : list jsval :=
  match l with
  | [] => []
  | r :: l' =>
      if is_rejected (send t i (mail r))
      then r :: refused send t mail (S i) l'
      else refused send t mail (S i) l'
  end.

End BulkMail.

(** The keys of the placeholders of a segmented text, in order. *)
Definition placeholder_keys (segs : list Placeholders.segment) : list jsstring :=
  flat_map (fun seg => match seg with
                       | Placeholders.Placeholder k => [k]
                       | Placeholders.Text _ => []
                       end) segs.

(** The object [{"toString": 0}]: its own [toString] is not a function,
    so it cannot be converted to a string. *)
Definition unprintable : jsval := JObj [(js "toString", JNum (num "0" eq_refl))].

(* ================================================================== *)
(** * Properties *)

(** ** The derivative matcher decides [lang] *)

Module RegexFacts.

Import Regex.

(** Invert a membership in the language of a compound expression. *)
Ltac invert_lang H := inversion H; subst; clear H.

Lemma cat_word r1 r2 s :
  lang (RCat r1 r2) s <-> exists s1 s2, s = s1 ++ s2 /\ lang r1 s1 /\ lang r2 s2.
Proof.
  split.
  - intro H. invert_lang H. eauto.
  - intros (s1 & s2 & -> & L1 & L2). now constructor.
Qed.

Lemma set_word p s : lang (RSet p) s <-> exists c, s = [c] /\ p c = true.
Proof.
  split.
  - intro H. invert_lang H. eauto.
  - intros (c & -> & Hc). now constructor.
Qed.

Lemma nullable_lang r : nullable r = true <-> lang r [].
Proof.
  induction r; simpl; split; intro H.
  - discriminate.
  - inversion H.
  - constructor.
  - reflexivity.
  - discriminate.
  - inversion H.
  - apply andb_true_iff in H as [H1 H2].
    apply cat_word. exists [], [].
    repeat split; [apply IHr1 | apply IHr2]; assumption.
  - apply cat_word in H as (s1 & s2 & E & L1 & L2).
    symmetry in E. apply app_eq_nil in E as [-> ->].
    apply andb_true_iff; split; [apply IHr1 | apply IHr2]; assumption.
  - apply orb_true_iff in H as [H | H];
      [apply LAltL, IHr1 | apply LAltR, IHr2]; assumption.
  - apply orb_true_iff.
    invert_lang H; [left; apply IHr1 | right; apply IHr2]; assumption.
  - constructor.
  - reflexivity.
Qed.

(** A non-empty word of [r*] starts with a non-empty word of [r]. *)
Lemma star_cons r c s :
  lang (RStar r) (c :: s) ->
  exists s1 s2, s = s1 ++ s2 /\ lang r (c :: s1) /\ lang (RStar r) s2.
Proof.
  intro H. remember (RStar r) as r' eqn:Er. remember (c :: s) as w eqn:Ew.
  revert c s Ew.
  induction H as [| | | | | |r0 s1 s2 L1 _ L2 IH2]; try discriminate.
  injection Er as ->. intros c s Ew.
  destruct s1 as [|c1 s1]; simpl in Ew.
  - apply (IH2 eq_refl _ _ Ew).
  - injection Ew as -> <-. now exists s1, s2.
Qed.

Lemma deriv_lang c r : forall s, lang (deriv c r) s <-> lang r (c :: s).
Proof.
  induction r; intro s; simpl.
  - split; intro H; inversion H.
  - split; intro H; inversion H.
  - destruct (p c) eqn:Ep; split; intro H; inversion H; subst.
    + now constructor.
    + constructor.
    + congruence.
  - assert (Hcat : lang (RCat (deriv c r1) r2) s ->
                   lang (RCat r1 r2) (c :: s)).
    { intro H. apply cat_word in H as (s1 & s2 & -> & L1 & L2).
      apply cat_word. exists (c :: s1), s2.
      repeat split; [apply IHr1|]; assumption. }
    assert (Hsplit : lang (RCat r1 r2) (c :: s) ->
              lang (RCat (deriv c r1) r2) s \/ (lang r1 [] /\ lang r2 (c :: s))).
    { intro H. apply cat_word in H as (s1 & s2 & E & L1 & L2).
      destruct s1 as [|c1 s1]; simpl in E.
      - right. subst. now split.
      - injection E as <- ->. left. constructor; [apply IHr1|]; assumption. }
    destruct (nullable r1) eqn:En; split; intro H.
    + invert_lang H; [now apply Hcat|].
      apply cat_word. exists [], (c :: s).
      repeat split; [now apply nullable_lang | now apply IHr2].
    + destruct (Hsplit H) as [H1 | [_ H2]];
        [now apply LAltL | apply LAltR; now apply IHr2].
    + now apply Hcat.
    + destruct (Hsplit H) as [H1 | [H1 _]]; [assumption|].
      apply nullable_lang in H1. congruence.
  - split; intro H; inversion H; subst;
      solve [apply LAltL; now apply IHr1 | apply LAltR; now apply IHr2].
  - split; intro H.
    + apply cat_word in H as (s1 & s2 & -> & L1 & L2).
      change (c :: s1 ++ s2) with ((c :: s1) ++ s2).
      constructor; [apply IHr|]; assumption.
    + apply star_cons in H as (s1 & s2 & -> & L1 & L2).
      constructor; [apply IHr|]; assumption.
Qed.

Lemma matches_lang s : forall r, matches r s = true <-> lang r s.
Proof.
  induction s as [|c s IH]; intro r; simpl.
  - apply nullable_lang.
  - rewrite IH. apply deriv_lang.
Qed.

(** The words of [[p]+]: non-empty, every unit in [p]. *)
Lemma star_set p s : lang (RStar (RSet p)) s <-> Forall (fun c => p c = true) s.
Proof.
  split.
  - intro H. remember (RStar (RSet p)) as r eqn:Er.
    induction H as [| | | | | |r0 s1 s2 L1 _ L2 IH2]; try discriminate.
    + constructor.
    + injection Er as ->. inversion L1; subst. simpl.
      constructor; [assumption | now apply IH2].
  - induction 1 as [|c s Hc _ IH].
    + constructor.
    + change (c :: s) with ([c] ++ s). constructor; [now constructor | assumption].
Qed.

Lemma plus_set p s :
  lang (RPlus (RSet p)) s <-> s <> [] /\ Forall (fun c => p c = true) s.
Proof.
  unfold RPlus. split.
  - intro H. apply cat_word in H as (s1 & s2 & -> & L1 & L2).
    apply set_word in L1 as (c & -> & Hc). simpl. split; [discriminate|].
    constructor; [assumption | now apply star_set].
  - intros [Hne Hall]. destruct s as [|c s]; [congruence|].
    inversion Hall; subst.
    change (c :: s) with ([c] ++ s).
    constructor; [now constructor | now apply star_set].
Qed.

End RegexFacts.

(* ================================================================== *)
(** ** The e-mail validator *)

Module ValidatorFacts.

Import Regex RegexFacts.

Lemma validateEmail_string s :
  validateEmail (JStr s) = Normal (matches emailRegex s).
Proof. reflexivity. Qed.

Lemma validateEmail_false s :
  validateEmail (JStr s) <> Normal true -> validateEmail (JStr s) = Normal false.
Proof.
  rewrite validateEmail_string. destruct (matches emailRegex s); congruence.
Qed.

Lemma validateEmail_shape s :
  validateEmail (JStr s) = Normal true <-> address_shape s.
Proof.
  rewrite validateEmail_string.
  assert (E : Normal (matches emailRegex s) = Normal true
              <-> matches emailRegex s = true).
  { split; [now intros [= ->] | now intros ->]. }
  rewrite E. clear E.
  unfold emailRegex, address_shape, address_run.
  rewrite matches_lang. split.
  - intro H.
    apply cat_word in H as (a & s1 & -> & La & H).
    apply cat_word in H as (x & s2 & -> & Lx & H).
    apply cat_word in H as (b & s3 & -> & Lb & H).
    apply cat_word in H as (y & c & -> & Ly & Lc).
    apply set_word in Lx as (x0 & -> & Hx). apply set_word in Ly as (y0 & -> & Hy).
    apply N.eqb_eq in Hx, Hy. subst x0 y0.
    apply plus_set in La, Lb, Lc.
    exists a, b, c. simpl. tauto.
  - intros (a & b & c & -> & Ha & Hb & Hc).
    apply plus_set in Ha, Hb, Hc.
    apply cat_word. exists a, (Chars.at_sign :: b ++ Chars.dot :: c).
    repeat split; [assumption|].
    apply cat_word. exists [Chars.at_sign], (b ++ Chars.dot :: c).
    repeat split; [now apply set_word; eexists|].
    apply cat_word. exists b, (Chars.dot :: c).
    repeat split; [assumption|].
    apply cat_word. exists [Chars.dot], c.
    repeat split; [now apply set_word; eexists | assumption].
Qed.

Lemma addr_char_not_at c : addr_char c = true -> c <> Chars.at_sign.
Proof.
  unfold addr_char, cu_eqb. intros H ->.
  apply andb_true_iff in H as [_ H]. now rewrite N.eqb_refl in H.
Qed.

Lemma run_no_at s : Forall (fun c => addr_char c = true) s -> ~ In Chars.at_sign s.
Proof.
  intros H Hin. rewrite Forall_forall in H.
  now apply (addr_char_not_at (H _ Hin)).
Qed.

(** A string with a single [@] splits around it in one way only. *)
Lemma split_at_unique (a a' b b' : jsstring) :
  a ++ Chars.at_sign :: b = a' ++ Chars.at_sign :: b' ->
  ~ In Chars.at_sign a' -> ~ In Chars.at_sign b' -> b = b'.
Proof.
  revert a'. induction a as [|x a IH]; intros [|x' a'] E Ha' Hb'; simpl in E.
  - now injection E.
  - injection E as <- E. exfalso. apply Ha'. now left.
  - injection E as -> E. exfalso. apply Hb'. rewrite <- E.
    apply in_or_app. right. now left.
  - injection E as -> E. apply (IH a' E); [|assumption].
    intro Hin. apply Ha'. now right.
Qed.

End ValidatorFacts.

(** C7. [validateEmail] is a function of its argument alone; it accepts
    every string of the shape [^[^\s@]+@[^\s@]+\.[^\s@]+$], and rejects
    every string without an [@] and every string with no dot after an
    [@]. *)
Theorem validateEmail_pattern (s : jsstring) :
  (address_shape s -> validateEmail (JStr s) = Normal true)
  /\ (~ In Chars.at_sign s -> validateEmail (JStr s) = Normal false)
  /\ (forall a b, s = a ++ Chars.at_sign :: b -> ~ In Chars.dot b ->
      validateEmail (JStr s) = Normal false).
Proof.
  split; [apply ValidatorFacts.validateEmail_shape | split].
  - intro Hno. apply ValidatorFacts.validateEmail_false. intro H.
    apply ValidatorFacts.validateEmail_shape in H as (a & b & c & -> & _).
    apply Hno, in_or_app. right. now left.
  - intros a b -> Hno. apply ValidatorFacts.validateEmail_false. intro H.
    apply ValidatorFacts.validateEmail_shape
      in H as (a' & b' & c' & E & [_ Ha] & [_ Hb] & [_ Hc]).
    apply ValidatorFacts.split_at_unique in E.
    + apply Hno. rewrite E. apply in_or_app. right. now left.
    + now apply ValidatorFacts.run_no_at.
    + intro Hin. apply in_app_or in Hin as [Hin | [Hin | Hin]].
      * now apply (ValidatorFacts.run_no_at Hb).
      * discriminate.
      * now apply (ValidatorFacts.run_no_at Hc).
Qed.

Lemma validateEmail_pattern_witness :
  validateEmail (JStr (js "a@b.com")) = Normal true
  /\ validateEmail (JStr (js "not-an-email")) = Normal false
  /\ validateEmail (JStr (js "a@b")) = Normal false.
Proof.
  split; [| split].
  - apply (proj1 (validateEmail_pattern (js "a@b.com"))).
    exists (js "a"), (js "b"), (js "com").
    split; [reflexivity|].
    repeat split; try discriminate; repeat constructor.
  - apply (proj1 (proj2 (validateEmail_pattern (js "not-an-email")))).
    vm_compute. intuition discriminate.
  - apply (proj2 (proj2 (validateEmail_pattern (js "a@b"))) (js "a") (js "b")).
    + reflexivity.
    + vm_compute. intuition discriminate.
Defined.

(* ================================================================== *)
(** ** Single send *)

Module SendEmailFacts.

Import SendEmail.

(** The first gate: a falsy [to] or [subject], or [text] and [html]
    both falsy. *)
Lemma first_gate env send req :
  truthy (to req) = false \/ truthy (subject req) = false
  \/ (truthy (text req) = false /\ truthy (html req) = false) ->
  handler env send req = (respond 400 (ErrorBody missing_fields), []).
Proof.
  intro H. unfold handler, attempt.
  destruct H as [-> | [-> | [-> ->]]]; simpl;
    rewrite ?orb_true_r; reflexivity.
Qed.

End SendEmailFacts.

(** C8. A single send request that lacks both [text] and [html], or lacks
    [to], or lacks [subject], is answered 400 with the missing-fields
    message, and nothing happens besides: no transport client is built
    and no mail is sent. *)
Theorem single_send_missing_fields env send (req : SendEmail.request) :
  (SendEmail.text req = JUndefined /\ SendEmail.html req = JUndefined)
  \/ SendEmail.to req = JUndefined \/ SendEmail.subject req = JUndefined ->
  SendEmail.handler env send req
  = (respond 400
       (ErrorBody (js "Missing required fields: to, subject, and either text or html")),
     []).
Proof.
  intro H. apply SendEmailFacts.first_gate.
  destruct H as [[-> ->] | [-> | ->]]; simpl; auto.
Qed.

Lemma single_send_missing_fields_witness :
  let send : provider := fun _ _ _ => Rejected JNull in
  SendEmail.handler (fun _ => None) send
    {| SendEmail.to := JStr (js "a@x.org");
       SendEmail.subject := JStr (js "Hello");
       SendEmail.text := JUndefined;
       SendEmail.html := JUndefined;
       SendEmail.from := JUndefined;
       SendEmail.service := JUndefined;
       SendEmail.attachments := JUndefined |}
  = (respond 400
       (ErrorBody (js "Missing required fields: to, subject, and either text or html")),
     []).
Proof.
  intro send. apply (@single_send_missing_fields (fun _ => None) send).
  left. split; reflexivity.
Defined.

(* ================================================================== *)
(** ** Bulk send *)

Module SendBulkEmailFacts.

Import SendBulkEmail BulkGates.

(** The sender and the defaults, as spelled out in [Expected]. *)
Lemma sender_expected env from : sender env from = Expected.sender env from.
Proof.
  unfold sender, Expected.sender, js_or, getenv.
  destruct (truthy from) eqn:Hf; simpl; rewrite ?Hf; [reflexivity|].
  destruct (env "DEFAULT_FROM_EMAIL"%string) as [[|c d]|]; reflexivity.
Qed.

Lemma selector_expected service :
  default_to (JStr (js "gmail")) service = Expected.selector service.
Proof. reflexivity. Qed.

Lemma completed_expected sent failed :
  completed sent failed = Expected.summary sent failed.
Proof. reflexivity. Qed.

Section Gates.

Variables (env : environment) (send : provider) (req : request).

Lemma gate1_fails :
  gate1 req = false ->
  handler env send req = (respond 400 (ErrorBody recipients_required), []).
Proof.
  unfold gate1, handler, attempt. destruct (recipients req) as [| | | | |[|x l]|];
    try discriminate; intros _; simpl; try reflexivity.
  - now destruct b.
  - now destruct (negb _).
  - now destruct s.
Qed.

Lemma gate1_passes :
  gate1 req = true ->
  negb (truthy (recipients req)) || negb (is_array (recipients req))
  || (List.length (elements (recipients req)) =? 0) = false.
Proof.
  unfold gate1. now destruct (recipients req) as [| | | | |[|x l]|].
Qed.

Lemma gate2_negb :
  negb (truthy (subject req))
  || (negb (truthy (text req)) && negb (truthy (html req))) = negb (gate2 req).
Proof.
  unfold gate2. now destruct (truthy (subject req)), (truthy (text req)),
    (truthy (html req)).
Qed.

Hypothesis passes1 : gate1 req = true.

Lemma gate2_fails :
  gate2 req = false ->
  handler env send req = (respond 400 (ErrorBody missing_fields), []).
Proof.
  intros H2. unfold handler, attempt.
  rewrite (gate1_passes passes1), gate2_negb, H2. reflexivity.
Qed.

Hypothesis passes2 : gate2 req = true.

(** A test that throws while the addresses are filtered. *)
Lemma gate3_throws e :
  invalid req = Throw e ->
  handler env send req = caught failed e [].
Proof.
  intros H3. unfold handler, attempt.
  rewrite (gate1_passes passes1), gate2_negb, passes2. simpl.
  fold (invalid req). now rewrite H3.
Qed.

Lemma gate3_fails x rest :
  invalid req = Normal (x :: rest) ->
  handler env send req
  = (respond 400 (InvalidEmailsBody invalid_addresses (x :: rest)), []).
Proof.
  intros H3. unfold handler, attempt.
  rewrite (gate1_passes passes1), gate2_negb, passes2. simpl.
  fold (invalid req). now rewrite H3.
Qed.

Hypothesis passes3 : invalid req = Normal [].

Lemma gate4_fails :
  50 < List.length (elements (recipients req)) ->
  handler env send req = (respond 400 (ErrorBody too_many), []).
Proof.
  intros H4. unfold handler, attempt.
  rewrite (gate1_passes passes1), gate2_negb, passes2. simpl.
  fold (invalid req). rewrite passes3. simpl.
  apply Nat.ltb_lt in H4. rewrite H4. reflexivity.
Qed.

Hypothesis passes4 : List.length (elements (recipients req)) <= 50.


(** Past the gates the handler builds one client, runs the loop and
    answers 200. *)
Lemma validated t :
  createTransporter env (Expected.selector (service req)) = Normal t ->
  let st := send_each send t (BulkMail.mail env req) (elements (recipients req))
              {| results := []; errors := []; trace := [CreateTransport t] |} in
  handler env send req
  = (respond 200
       (BulkBody (Expected.summary (List.length (results st)) (List.length (errors st)))
          (results st) (errors st)),
     trace st).
Proof.
  intros Ht. unfold handler, attempt.
  rewrite (gate1_passes passes1), gate2_negb, passes2. simpl.
  fold (invalid req). rewrite passes3. simpl.
  apply Nat.nlt_ge, Nat.ltb_nlt in passes4. rewrite passes4.
  rewrite selector_expected, Ht. simpl.
  unfold BulkMail.mail. now rewrite sender_expected.
Qed.

End Gates.

(** Every iteration makes exactly one call and one entry, whatever the
    outcome. *)
Lemma send_one_counts send t mail_for st r :
  let st' := send_one send t mail_for st r in
  List.length (results st') + List.length (errors st')
  = S (List.length (results st) + List.length (errors st))
  /\ sends (trace st') = S (sends (trace st)).
Proof.
  unfold send_one, sends.
  destruct (send t _ _); simpl; rewrite filter_app, !length_app; simpl; lia.
Qed.

Lemma send_each_counts send t mail_for l : forall st,
  let st' := send_each send t mail_for l st in
  List.length (results st') + List.length (errors st')
  = List.length l + (List.length (results st) + List.length (errors st))
  /\ sends (trace st') = List.length l + sends (trace st).
Proof.
  induction l as [|r l IH]; intro st; simpl.
  - split; reflexivity.
  - destruct (IH (send_one send t mail_for st r)) as [E1 E2].
    destruct (send_one_counts send t mail_for st r) as [F1 F2].
    simpl in *. rewrite E1, E2, F1, F2. lia.
Qed.

(** The filter on a list whose entries all pass. *)
Lemma invalid_entries_valid l :
  Forall (fun r => validateEmail r = Normal true) l ->
  invalid_entries l = Normal [].
Proof.
  induction 1 as [|r l Hr _ IH]; [reflexivity|].
  simpl. now rewrite Hr, IH.
Qed.

End SendBulkEmailFacts.

(** C1. A bulk request that passes validation with three valid recipients,
    for which the client is built and the provider fails the second call
    and serves the first and third, is answered 200; all three sends are
    attempted, the first and third recipients are in [results] and the
    second is in [errors]. *)
Theorem bulk_partial_failure env send (req : SendBulkEmail.request) r1 r2 r3 client :
  SendBulkEmail.recipients req = JArr [r1; r2; r3] ->
  validateEmail r1 = Normal true -> validateEmail r2 = Normal true ->
  validateEmail r3 = Normal true ->
  truthy (SendBulkEmail.subject req) = true ->
  truthy (SendBulkEmail.text req) || truthy (SendBulkEmail.html req) = true ->
  createTransporter env (default_to (JStr (js "gmail")) (SendBulkEmail.service req))
  = Normal client ->
  (forall t n m, n < 3 -> is_rejected (send t n m) = (n =? 1)) ->
  exists message results errors trace,
    SendBulkEmail.handler env send req
    = (respond 200 (BulkBody message results errors), trace)
    /\ List.length results = 2 /\ List.length errors = 1
    /\ map result_email results = [r1; r3]
    /\ map error_email errors = [r2]
    /\ sends trace = 3.
Proof.
  intros Hr V1 V2 V3 Hs Hb Hc Hsend.
  rewrite (@SendBulkEmailFacts.validated env send req) with (t := client).
  - rewrite Hr. simpl SendBulkEmail.elements.
    set (mail_for := BulkMail.mail env req).
    unfold SendBulkEmail.send_each, SendBulkEmail.send_one, sends. simpl.
    pose proof (Hsend client 0 (mail_for r1)) as H0.
    destruct (send client 0 (mail_for r1)) as [i1|];
      [clear H0 | now specialize (H0 ltac:(lia))].
    simpl.
    pose proof (Hsend client 1 (mail_for r2)) as H1.
    destruct (send client 1 (mail_for r2)) as [|m2];
      [now specialize (H1 ltac:(lia)) | clear H1].
    simpl.
    pose proof (Hsend client 2 (mail_for r3)) as H2.
    destruct (send client 2 (mail_for r3)) as [i3|];
      [clear H2 | now specialize (H2 ltac:(lia))].
    simpl. do 4 eexists. repeat split.
  - unfold BulkGates.gate1. now rewrite Hr.
  - unfold BulkGates.gate2. now rewrite Hs, Hb.
  - unfold BulkGates.invalid. rewrite Hr. simpl SendBulkEmail.elements.
    apply SendBulkEmailFacts.invalid_entries_valid. now repeat constructor.
  - rewrite Hr. simpl. lia.
  - exact Hc.
Qed.

Lemma bulk_partial_failure_witness :
  let req := {| SendBulkEmail.recipients :=
                  JArr [JStr (js "a@x.org"); JStr (js "b@x.org"); JStr (js "c@x.org")];
                SendBulkEmail.subject := JStr (js "Hello");
                SendBulkEmail.text := JStr (js "Hi there");
                SendBulkEmail.html := JUndefined;
                SendBulkEmail.from := JUndefined;
                SendBulkEmail.service := JUndefined |} in
  let send : provider := fun _ n _ =>
    if n =? 1 then Rejected (JStr (js "Mailbox unavailable"))
    else Resolved {| messageId := JStr (js "id"); response := JStr (js "250 OK") |} in
  exists message results errors trace,
    SendBulkEmail.handler (fun _ => None) send req
    = (respond 200 (BulkBody message results errors), trace)
    /\ List.length results = 2 /\ List.length errors = 1
    /\ map result_email results
       = [JStr (js "a@x.org"); JStr (js "c@x.org")]
    /\ map error_email errors = [JStr (js "b@x.org")]
    /\ sends trace = 3.
Proof.
  intros req send.
  apply (@bulk_partial_failure (fun _ => None) send req
           (JStr (js "a@x.org")) (JStr (js "b@x.org")) (JStr (js "c@x.org"))
           (FromProfile (gmail_profile (fun _ => None))));
    try reflexivity.
  intros t n m Hn. unfold send.
  destruct n as [|[|n]]; reflexivity.
Defined.

(** C4, as stated, fails: a list of 51 recipients that holds an entry
    which cannot be converted to a string makes the test of that entry
    throw, and the request is answered 500; still nothing is sent. *)
Lemma bulk_51_recipients_counterexample :
  let req := {| SendBulkEmail.recipients :=
                  JArr (unprintable :: repeat (JStr (js "a@x.org")) 50);
                SendBulkEmail.subject := JStr (js "Hello");
                SendBulkEmail.text := JStr (js "Hi there");
                SendBulkEmail.html := JUndefined;
                SendBulkEmail.from := JUndefined;
                SendBulkEmail.service := JUndefined |} in
  let send : provider := fun _ _ _ => Rejected JNull in
  List.length (SendBulkEmail.elements (SendBulkEmail.recipients req)) = 51
  /\ SendBulkEmail.handler (fun _ => None) send req
     = (respond 500 (FailureBody (js "Failed to send bulk emails") TypeErrorMessage),
        [])
  /\ status (fst (SendBulkEmail.handler (fun _ => None) send req)) <> 400.
Proof.
  intros req send. split; [reflexivity | split].
  - vm_compute. reflexivity.
  - vm_compute. discriminate.
Qed.

Module Bulk51Facts.

Import SendBulkEmail.

(** Entries that convert to strings can all be tested. *)
Lemma invalid_entries_normal l :
  Forall (fun r => exists s, to_string r = Normal s) l ->
  exists inv, invalid_entries l = Normal inv.
Proof.
  induction 1 as [|r l [s Hs] _ [inv IH]]; [now exists []|].
  simpl. unfold validateEmail. rewrite Hs, IH. simpl. eauto.
Qed.

End Bulk51Facts.

(** C4, amended. A bulk request whose recipients list has 51 entries is
    never sent: the trace is empty.  It is answered 400 when every entry
    can be converted to a string, and also when the subject or the body
    is missing; otherwise the test of an entry throws and it is answered
    500. *)
Theorem bulk_51_recipients_rejected env send (req : SendBulkEmail.request) l :
  SendBulkEmail.recipients req = JArr l ->
  List.length l = 51 ->
  snd (SendBulkEmail.handler env send req) = []
  /\ (status (fst (SendBulkEmail.handler env send req)) = 400
      \/ status (fst (SendBulkEmail.handler env send req)) = 500)
  /\ (Forall (fun r => exists s, to_string r = Normal s) l ->
      status (fst (SendBulkEmail.handler env send req)) = 400)
  /\ (BulkGates.gate2 req = false ->
      status (fst (SendBulkEmail.handler env send req)) = 400)
  /\ (BulkGates.gate2 req = true ->
      forall e, BulkGates.invalid req = Throw e ->
      SendBulkEmail.handler env send req
      = (respond 500 (FailureBody (js "Failed to send bulk emails") (message_of e)),
         [])).
Proof.
  intros Hr Hl.
  assert (G1 : BulkGates.gate1 req = true).
  { unfold BulkGates.gate1. rewrite Hr. now destruct l. }
  assert (H51 : 50 < List.length (SendBulkEmail.elements (SendBulkEmail.recipients req))).
  { rewrite Hr. simpl. lia. }
  destruct (BulkGates.gate2 req) eqn:G2.
  - destruct (BulkGates.invalid req) as [[|x inv]|e] eqn:G3.
    + rewrite (@SendBulkEmailFacts.gate4_fails env send req G1 G2 G3 H51).
      repeat split; auto; try discriminate.
    + rewrite (@SendBulkEmailFacts.gate3_fails env send req G1 G2 x inv G3).
      repeat split; auto; try discriminate.
    + rewrite (@SendBulkEmailFacts.gate3_throws env send req G1 G2 e G3).
      split; [reflexivity|]. split; [now right|]. split; [|split; [discriminate|]].
      * intro Hall. apply Bulk51Facts.invalid_entries_normal in Hall as [inv Hinv].
        unfold BulkGates.invalid in G3. rewrite Hr in G3. simpl in G3. congruence.
      * intros _ e' [= <-]. reflexivity.
  - rewrite (@SendBulkEmailFacts.gate2_fails env send req G1 G2).
    repeat split; auto; discriminate.
Qed.

Lemma bulk_51_recipients_rejected_witness :
  let req := {| SendBulkEmail.recipients := JArr (repeat (JStr (js "a@x.org")) 51);
                SendBulkEmail.subject := JStr (js "Hello");
                SendBulkEmail.text := JStr (js "Hi there");
                SendBulkEmail.html := JUndefined;
                SendBulkEmail.from := JUndefined;
                SendBulkEmail.service := JUndefined |} in
  let send : provider := fun _ _ _ => Rejected JNull in
  snd (SendBulkEmail.handler (fun _ => None) send req) = []
  /\ status (fst (SendBulkEmail.handler (fun _ => None) send req)) = 400.
Proof.
  intros req send.
  destruct (@bulk_51_recipients_rejected (fun _ => None) send req
              (repeat (JStr (js "a@x.org")) 51) eq_refl eq_refl)
    as (Htrace & _ & Hall & _).
  split; [exact Htrace|]. apply Hall.
  apply Forall_forall. intros r Hin. apply repeat_spec in Hin. subst r.
  now exists (js "a@x.org").
Defined.

(** C3, as stated, fails: with 51 recipients of which one is not an
    address, the 400 response lists the invalid address and does not
    report the size limit. *)
Lemma bulk_gate_order_counterexample :
  let req := {| SendBulkEmail.recipients :=
                  JArr (JStr (js "not-an-email") :: repeat (JStr (js "a@x.org")) 50);
                SendBulkEmail.subject := JStr (js "Hello");
                SendBulkEmail.text := JStr (js "Hi there");
                SendBulkEmail.html := JUndefined;
                SendBulkEmail.from := JUndefined;
                SendBulkEmail.service := JUndefined |} in
  let send : provider := fun _ _ _ => Rejected JNull in
  50 < List.length (SendBulkEmail.elements (SendBulkEmail.recipients req))
  /\ In (JStr (js "not-an-email")) (SendBulkEmail.elements (SendBulkEmail.recipients req))
  /\ validateEmail (JStr (js "not-an-email")) = Normal false
  /\ SendBulkEmail.handler (fun _ => None) send req
     = (respond 400
          (InvalidEmailsBody (js "Invalid email addresses found")
             [JStr (js "not-an-email")]),
        [])
  /\ json (fst (SendBulkEmail.handler (fun _ => None) send req))
     <> ErrorBody (js "Maximum 50 recipients allowed per bulk email").
Proof.
  intros req send. split; [|split; [|split; [|split]]].
  - vm_compute. lia.
  - now left.
  - reflexivity.
  - vm_compute. reflexivity.
  - vm_compute. discriminate.
Qed.

Module GateOrderFacts.

Import SendBulkEmail.

(** What the filter returns when no test throws: the entries that fail
    the test, in order. *)
Lemma invalid_entries_filter l : forall inv,
  invalid_entries l = Normal inv ->
  inv = filter (fun r => negb (accepted (validateEmail r))) l.
Proof.
  induction l as [|r l IH]; intros inv H; simpl in H.
  - now injection H as <-.
  - destruct (validateEmail r) as [valid|e] eqn:Hr; [|discriminate]. simpl in H.
    destruct (invalid_entries l) as [others|e]; [|discriminate]. simpl in H.
    injection H as <-. rewrite (IH others eq_refl).
    cbn [filter]. rewrite Hr. now destruct valid.
Qed.

End GateOrderFacts.

(** C3, amended. The bulk handler tries its gates in this order: the
    recipients are a non-empty array; the subject and one of text and
    html are present; every address is valid; there are at most 50
    recipients.  Hence a request with subject and body whose recipients
    contain an invalid address is answered 400 with the list of the
    entries that fail the test, whether or not the list exceeds 50
    entries; the size limit is reported only when every address is valid.
    This holds when every entry can be tested; when the test of an entry
    throws (an entry that cannot be converted to a string), the request
    is answered 500 and nothing is sent. *)
Theorem bulk_gate_order env send (req : SendBulkEmail.request) :
  (BulkGates.gate1 req = false ->
   SendBulkEmail.handler env send req
   = (respond 400 (ErrorBody SendBulkEmail.recipients_required), []))
  /\ (BulkGates.gate1 req = true -> BulkGates.gate2 req = false ->
      SendBulkEmail.handler env send req
      = (respond 400 (ErrorBody SendBulkEmail.missing_fields), []))
  /\ (BulkGates.gate1 req = true -> BulkGates.gate2 req = true ->
      forall inv, BulkGates.invalid req = Normal inv -> inv <> [] ->
      inv = filter (fun r => negb (accepted (validateEmail r)))
              (SendBulkEmail.elements (SendBulkEmail.recipients req))
      /\ SendBulkEmail.handler env send req
         = (respond 400 (InvalidEmailsBody SendBulkEmail.invalid_addresses inv), []))
  /\ (BulkGates.gate1 req = true -> BulkGates.gate2 req = true ->
      BulkGates.invalid req = Normal [] ->
      50 < List.length (SendBulkEmail.elements (SendBulkEmail.recipients req)) ->
      SendBulkEmail.handler env send req
      = (respond 400 (ErrorBody SendBulkEmail.too_many), []))
  /\ (BulkGates.gate1 req = true -> BulkGates.gate2 req = true ->
      forall e, BulkGates.invalid req = Throw e ->
      SendBulkEmail.handler env send req
      = (respond 500 (FailureBody SendBulkEmail.failed (message_of e)), [])).
Proof.
  split; [apply SendBulkEmailFacts.gate1_fails|].
  split; [apply SendBulkEmailFacts.gate2_fails|].
  split; [|split].
  - intros G1 G2 inv G3 Hne. split.
    + now apply GateOrderFacts.invalid_entries_filter.
    + destruct inv as [|x rest]; [congruence|].
      now apply SendBulkEmailFacts.gate3_fails.
  - apply SendBulkEmailFacts.gate4_fails.
  - intros G1 G2 e G3. now apply SendBulkEmailFacts.gate3_throws.
Qed.

Lemma bulk_gate_order_witness :
  let body (l : list jsval) :=
    {| SendBulkEmail.recipients := JArr l;
       SendBulkEmail.subject := JStr (js "Hello");
       SendBulkEmail.text := JStr (js "Hi there");
       SendBulkEmail.html := JUndefined;
       SendBulkEmail.from := JUndefined;
       SendBulkEmail.service := JUndefined |} in
  let send : provider := fun _ _ _ => Rejected JNull in
  let mixed := JStr (js "not-an-email") :: repeat (JStr (js "a@x.org")) 50 in
  SendBulkEmail.handler (fun _ => None) send (body mixed)
  = (respond 400
       (InvalidEmailsBody SendBulkEmail.invalid_addresses [JStr (js "not-an-email")]),
     [])
  /\ SendBulkEmail.handler (fun _ => None) send (body (repeat (JStr (js "a@x.org")) 51))
     = (respond 400 (ErrorBody SendBulkEmail.too_many), [])
  /\ SendBulkEmail.handler (fun _ => None) send
       (body [JStr (js "not-an-email"); unprintable])
     = (respond 500 (FailureBody SendBulkEmail.failed TypeErrorMessage), []).
Proof.
  intros body send mixed. split; [|split].
  - apply (proj1 (proj2 (proj2 (bulk_gate_order (fun _ => None) send (body mixed))))
             eq_refl eq_refl [JStr (js "not-an-email")]).
    + vm_compute. reflexivity.
    + discriminate.
  - apply (proj1 (proj2 (proj2 (proj2
             (bulk_gate_order (fun _ => None) send
                (body (repeat (JStr (js "a@x.org")) 51)))))) eq_refl eq_refl).
    + vm_compute. reflexivity.
    + vm_compute. lia.
  - apply (proj2 (proj2 (proj2 (proj2
             (bulk_gate_order (fun _ => None) send
                (body [JStr (js "not-an-email"); unprintable])))))
             eq_refl eq_refl TypeError).
    vm_compute. reflexivity.
Defined.

(** C10, as stated, fails for the bulk handler: a request with an empty
    subject and no recipients is answered with the recipients error, not
    the missing-fields error. *)
Lemma empty_string_missing_counterexample :
  let req := {| SendBulkEmail.recipients := JUndefined;
                SendBulkEmail.subject := JStr [];
                SendBulkEmail.text := JStr (js "Hi there");
                SendBulkEmail.html := JUndefined;
                SendBulkEmail.from := JUndefined;
                SendBulkEmail.service := JUndefined |} in
  let send : provider := fun _ _ _ => Rejected JNull in
  SendBulkEmail.subject req = JStr []
  /\ SendBulkEmail.handler (fun _ => None) send req
     = (respond 400
          (ErrorBody (js "Recipients array is required and cannot be empty")), [])
  /\ SendBulkEmail.handler (fun _ => None) send req
     <> (respond 400
           (ErrorBody (js "Missing required fields: subject, and either text or html")),
         []).
Proof.
  intros req send. repeat split. vm_compute. discriminate.
Qed.

(** C10, amended. The presence checks treat an empty string as missing:
    a single send request whose [text] is the empty string and whose
    [html] is absent, and a bulk request with a non-empty recipients
    array whose [subject] is the empty string, are answered 400 with the
    missing-fields error of their handler. *)
Theorem empty_string_missing env send :
  (forall req : SendEmail.request,
      SendEmail.text req = JStr [] -> SendEmail.html req = JUndefined ->
      SendEmail.handler env send req
      = (respond 400 (ErrorBody SendEmail.missing_fields), []))
  /\ (forall (req : SendBulkEmail.request) r l,
         SendBulkEmail.recipients req = JArr (r :: l) ->
         SendBulkEmail.subject req = JStr [] ->
         SendBulkEmail.handler env send req
         = (respond 400 (ErrorBody SendBulkEmail.missing_fields), [])).
Proof.
  split.
  - intros req Ht Hh. apply SendEmailFacts.first_gate.
    right. right. now rewrite Ht, Hh.
  - intros req r l Hr Hs. apply SendBulkEmailFacts.gate2_fails.
    + unfold BulkGates.gate1. now rewrite Hr.
    + unfold BulkGates.gate2. now rewrite Hs.
Qed.

Lemma empty_string_missing_witness :
  let send : provider := fun _ _ _ => Rejected JNull in
  SendEmail.handler (fun _ => None) send
    {| SendEmail.to := JStr (js "a@x.org");
       SendEmail.subject := JStr (js "Hello");
       SendEmail.text := JStr [];
       SendEmail.html := JUndefined;
       SendEmail.from := JUndefined;
       SendEmail.service := JUndefined;
       SendEmail.attachments := JUndefined |}
  = (respond 400 (ErrorBody SendEmail.missing_fields), [])
  /\ SendBulkEmail.handler (fun _ => None) send
       {| SendBulkEmail.recipients := JArr [JStr (js "a@x.org")];
          SendBulkEmail.subject := JStr [];
          SendBulkEmail.text := JStr (js "Hi there");
          SendBulkEmail.html := JUndefined;
          SendBulkEmail.from := JUndefined;
          SendBulkEmail.service := JUndefined |}
     = (respond 400 (ErrorBody SendBulkEmail.missing_fields), []).
Proof.
  intro send. split.
  - apply (proj1 (empty_string_missing (fun _ => None) send)); reflexivity.
  - apply (proj2 (empty_string_missing (fun _ => None) send)
             _ (JStr (js "a@x.org")) []); reflexivity.
Defined.

(* ================================================================== *)
(** ** Rendering on templates with well-formed placeholders *)

Module RenderFacts.

Import Templates Placeholders.

Lemma jsstring_eqb_eq a b : jsstring_eqb a b = true <-> a = b.
Proof.
  revert b. induction a as [|x a IH]; intros [|y b]; simpl;
    try (split; [discriminate | congruence]); [tauto|].
  rewrite andb_true_iff, IH. unfold cu_eqb. rewrite N.eqb_eq.
  split; [intros [-> ->] | intros [= -> ->]]; auto.
Qed.

Lemma jsstring_eqb_refl a : jsstring_eqb a a = true.
Proof. now apply jsstring_eqb_eq. Qed.

Lemma jsstring_eqb_neq a b : a <> b -> jsstring_eqb a b = false.
Proof.
  intro H. apply not_true_is_false. now rewrite jsstring_eqb_eq.
Qed.

(** *** The pattern of a plain key is its token, unit for unit *)

Lemma compile_literal l :
  (forall c, In c l ->
     literal_unit c = true /\ cu_eqb c Chars.lbrace = false) ->
  Replace.compile l = Some (map cu_eqb l).
Proof.
  induction l as [|c l IH]; intro H; [reflexivity|].
  simpl. destruct (H c (or_introl eq_refl)) as [Hc Hb].
  unfold literal_unit in Hc. apply andb_true_iff in Hc as [Hc1 Hc2].
  apply negb_true_iff in Hc1, Hc2. rewrite Hc1, Hb, Hc2. simpl.
  rewrite IH; [reflexivity|]. intros c' Hin. apply H. now right.
Qed.

Lemma brace_free_forall s :
  brace_free s = true <->
  forall c, In c s -> cu_eqb c Chars.lbrace = false /\ cu_eqb c Chars.rbrace = false.
Proof.
  unfold brace_free. rewrite forallb_forall. split; intros H c Hin.
  - specialize (H c Hin). unfold is_brace in H.
    apply negb_true_iff, orb_false_iff in H. exact H.
  - destruct (H c Hin) as [H1 H2]. unfold is_brace. now rewrite H1, H2.
Qed.

Lemma compile_token key :
  plain_key key = true ->
  Replace.compile (token key) = Some (map cu_eqb (token key)).
Proof.
  unfold plain_key. intro H.
  apply andb_true_iff in H as [H Hq]. apply andb_true_iff in H as [Hb Hl].
  apply negb_true_iff in Hq. rewrite forallb_forall in Hl.
  rewrite brace_free_forall in Hb.
  unfold token. change (js "{{") with [Chars.lbrace; Chars.lbrace].
  cbn [app Replace.compile].
  change (Replace.beyond_fragment Chars.lbrace) with false.
  change (cu_eqb Chars.lbrace Chars.lbrace) with true.
  change (cu_eqb Chars.lbrace Chars.dot) with false.
  cbn [andb]. rewrite Hq.
  change (Replace.braced_quantifier (Chars.lbrace :: key ++ js "}}")) with false.
  cbv iota. rewrite compile_literal; [reflexivity|].
  intros c Hin. apply in_app_or in Hin as [Hin | Hin].
  - split; [now apply Hl | now apply Hb].
  - destruct Hin as [<- | [<- | []]]; split; reflexivity.
Qed.

Lemma match_prefix_literal t s :
  Replace.match_prefix (map cu_eqb t) (t ++ s) = Some (t, s).
Proof.
  induction t as [|c t IH]; [reflexivity|].
  simpl. unfold cu_eqb at 1. now rewrite N.eqb_refl, IH.
Qed.

Lemma match_prefix_literal_inv t s m r :
  Replace.match_prefix (map cu_eqb t) s = Some (m, r) -> s = t ++ r.
Proof.
  revert s m. induction t as [|c t IH]; intros s m H; simpl in H.
  - now injection H as _ ->.
  - destruct s as [|x s]; [discriminate|].
    destruct (cu_eqb c x) eqn:E; [|discriminate].
    apply N.eqb_eq in E. subst x.
    destruct (Replace.match_prefix (map cu_eqb t) s) as [[m' r']|] eqn:M;
      [|discriminate].
    injection H as _ ->. simpl. f_equal. apply (IH _ _ M).
Qed.

(** A value without [$] is inserted as it is. *)
Lemma get_substitution_plain m b a v :
  dollar_free v = true -> Replace.get_substitution m b a v = v.
Proof.
  induction v as [|c v IH]; [reflexivity|].
  simpl. intro H. apply andb_true_iff in H as [Hc Hv].
  apply negb_true_iff in Hc. rewrite Hc, IH; auto.
Qed.

(** *** The scan over a string *)

Lemma replace_from_seen p v seen seen' : forall s k,
  dollar_free v = true ->
  Replace.replace_from p v seen k s = Replace.replace_from p v seen' k s.
Proof.
  intros s k Hv. revert seen seen' k.
  induction s as [|c s IH]; intros seen seen' k; simpl.
  - destruct k; [|reflexivity].
    destruct (Replace.match_prefix p []) as [[m after]|]; [|reflexivity].
    now rewrite !get_substitution_plain.
  - destruct k as [|k]; [|apply IH].
    destruct (Replace.match_prefix p (c :: s)) as [[m after]|].
    + rewrite !get_substitution_plain by assumption.
      destruct m; f_equal; [f_equal|]; apply IH.
    + f_equal. apply IH.
Qed.

Lemma replace_from_skip p v m : forall seen s,
  Replace.replace_from p v seen (List.length m) (m ++ s)
  = Replace.replace_from p v (rev m ++ seen) 0 s.
Proof.
  induction m as [|c m IH]; intros seen s; [reflexivity|].
  simpl. rewrite IH, <- app_assoc. reflexivity.
Qed.

Lemma cu_eqb_sym a b : cu_eqb a b = cu_eqb b a.
Proof. apply N.eqb_sym. Qed.

(** Where the text has no opening brace, a token pattern finds nothing. *)
Lemma replace_no_open t v w : forall s,
  dollar_free v = true ->
  (forall c, In c w -> cu_eqb c Chars.lbrace = false) ->
  Replace.replace_from (map cu_eqb (Chars.lbrace :: t)) v [] 0 (w ++ s)
  = w ++ Replace.replace_from (map cu_eqb (Chars.lbrace :: t)) v [] 0 s.
Proof.
  intros s Hv. induction w as [|c w IH]; intro Hw; [reflexivity|].
  cbn [app Replace.replace_from map Replace.match_prefix].
  rewrite cu_eqb_sym, (Hw c (or_introl eq_refl)).
  f_equal. rewrite (replace_from_seen _ _ [c] [] _ _ Hv).
  apply IH. intros c' Hin. apply Hw. now right.
Qed.

(** Where the text starts with the token, the value takes its place. *)
Lemma replace_match c t v s :
  dollar_free v = true ->
  Replace.replace_from (map cu_eqb (c :: t)) v [] 0 ((c :: t) ++ s)
  = v ++ Replace.replace_from (map cu_eqb (c :: t)) v [] 0 s.
Proof.
  intro Hv. cbn [app Replace.replace_from].
  change (c :: t ++ s) with ((c :: t) ++ s).
  rewrite match_prefix_literal, get_substitution_plain by assumption.
  f_equal. rewrite replace_from_skip.
  now apply replace_from_seen.
Qed.

(** Where the text starts otherwise, its first unit is passed over. *)
Lemma replace_miss p v c s :
  dollar_free v = true ->
  Replace.match_prefix p (c :: s) = None ->
  Replace.replace_from p v [] 0 (c :: s) = c :: Replace.replace_from p v [] 0 s.
Proof.
  intros Hv Hm. cbn [Replace.replace_from]. rewrite Hm.
  f_equal. now apply replace_from_seen.
Qed.

End RenderFacts.

Module FillFacts.

Import Templates Placeholders RenderFacts.

Lemma flatten_app a b : flatten (a ++ b) = flatten a ++ flatten b.
Proof. apply flat_map_app. Qed.

Lemma flatten_text v : flatten (map Text v) = v.
Proof. induction v as [|c v IH]; simpl; congruence. Qed.

Lemma token_cons key :
  token key = Chars.lbrace :: Chars.lbrace :: key ++ [Chars.rbrace; Chars.rbrace].
Proof. reflexivity. Qed.

(** Two keys without braces whose tokens start the same text are equal. *)
Lemma key_until_brace k : forall key x y,
  (forall c, In c k -> cu_eqb c Chars.rbrace = false) ->
  (forall c, In c key -> cu_eqb c Chars.rbrace = false) ->
  k ++ Chars.rbrace :: x = key ++ Chars.rbrace :: y -> k = key.
Proof.
  induction k as [|a k IH]; intros [|b key] x y Hk Hkey E; simpl in E.
  - reflexivity.
  - injection E as <- _. now specialize (Hkey _ (or_introl eq_refl)).
  - injection E as -> _. now specialize (Hk _ (or_introl eq_refl)).
  - injection E as -> E. f_equal. apply (IH key x y); auto.
    + intros c Hin. apply Hk. now right.
    + intros c Hin. apply Hkey. now right.
Qed.

Lemma token_prefix_inj k key s r :
  brace_free k = true -> brace_free key = true ->
  token k ++ s = token key ++ r -> k = key.
Proof.
  rewrite !brace_free_forall, !token_cons. intros Hk Hkey E.
  simpl in E. injection E as E. rewrite <- !app_assoc in E. simpl in E.
  eapply key_until_brace; [| |exact E].
  - intros c Hin. now apply Hk.
  - intros c Hin. now apply Hkey.
Qed.

(** One pass of the loop over a well-formed text: the placeholders of
    the key are filled, everything else is left as it is. *)
Lemma replace_flatten key v segs :
  brace_free key = true -> dollar_free v = true ->
  forallb segment_ok segs = true ->
  Replace.replace (map cu_eqb (token key)) v (flatten segs)
  = flatten (flat_map (fill key v) segs).
Proof.
  intros Hkey Hv. unfold Replace.replace.
  induction segs as [|seg segs IH]; intro Hok; [reflexivity|].
  simpl in Hok. apply andb_true_iff in Hok as [Hseg Hok].
  specialize (IH Hok).
  cbn [flat_map flatten]. fold (flatten segs). rewrite flatten_app.
  destruct seg as [c | k]; simpl in Hseg; cbn [segment_text fill].
  - (* a unit of text *)
    unfold is_brace in Hseg. apply negb_true_iff, orb_false_iff in Hseg as [Hc _].
    rewrite token_cons. cbn [flatten flat_map segment_text app].
    rewrite <- IH.
    apply replace_no_open with (w := [c]); [assumption|].
    intros c' [<- | []]. exact Hc.
  - destruct (jsstring_eqb k key) eqn:E.
    + (* the key's own placeholder *)
      apply jsstring_eqb_eq in E. subst k.
      rewrite flatten_text, <- IH, token_cons.
      now apply replace_match.
    + (* the placeholder of another key *)
      cbn [flatten flat_map]. rewrite app_nil_r. cbn [segment_text].
      rewrite <- IH.
      assert (Hopen : forall c, In c (k ++ [Chars.rbrace; Chars.rbrace]) ->
                        cu_eqb c Chars.lbrace = false).
      { intros c Hin. apply in_app_or in Hin as [Hin | Hin].
        - rewrite brace_free_forall in Hseg. now apply Hseg.
        - destruct Hin as [<- | [<- | []]]; reflexivity. }
      rewrite (token_cons k). cbn [app].
      rewrite replace_miss; [f_equal | assumption |].
      * rewrite replace_miss; [f_equal | assumption |].
        -- rewrite token_cons. now apply replace_no_open.
        -- rewrite token_cons.
           destruct (k ++ [Chars.rbrace; Chars.rbrace]) as [|x w] eqn:Ew.
           ++ now destruct k.
           ++ cbn [app map Replace.match_prefix].
              change (cu_eqb Chars.lbrace Chars.lbrace) with true. cbv iota.
              rewrite cu_eqb_sym, (Hopen x (or_introl eq_refl)). reflexivity.
      * destruct (Replace.match_prefix _ _) as [[m r]|] eqn:M; [|reflexivity].
        apply match_prefix_literal_inv in M.
        exfalso.
        assert (k = key); [|subst; now rewrite jsstring_eqb_refl in E].
        apply token_prefix_inj with (s := flatten segs) (r := r);
          [assumption | assumption |].
        rewrite <- M, token_cons. reflexivity.
Qed.

(** *** Splitting a well-formed string into segments *)

Lemma scan_sound s : forall st segs,
  scan s = Some (st, segs) ->
  forallb segment_ok segs = true /\ scan_invariant s st segs.
Proof.
  induction s as [|c s IH]; intros st segs H; simpl in H.
  - injection H as <- <-. now split.
  - destruct (scan s) as [[st' segs']|]; [|discriminate].
    destruct (IH _ _ eq_refl) as [Hok Hinv].
    unfold scan_step in H.
    destruct st' as [| |key|key]; simpl in Hinv.
    + destruct (cu_eqb c Chars.rbrace) eqn:Er.
      * injection H as <- <-. apply N.eqb_eq in Er. subst. now split.
      * destruct (cu_eqb c Chars.lbrace) eqn:El; [discriminate|].
        injection H as <- <-. subst s. split; [|reflexivity].
        simpl. unfold is_brace. now rewrite El, Er.
    + destruct (cu_eqb c Chars.rbrace) eqn:Er; [|discriminate].
      injection H as <- <-. apply N.eqb_eq in Er. subst. now repeat split.
    + destruct Hinv as [Hkey ->].
      destruct (cu_eqb c Chars.lbrace) eqn:El.
      * injection H as <- <-. apply N.eqb_eq in El. subst. now repeat split.
      * destruct (cu_eqb c Chars.rbrace) eqn:Er; [discriminate|].
        injection H as <- <-. split; [assumption|]. split; [|reflexivity].
        simpl. unfold is_brace. now rewrite El, Er.
    + destruct Hinv as [Hkey ->].
      destruct (cu_eqb c Chars.lbrace) eqn:El; [|discriminate].
      injection H as <- <-. apply N.eqb_eq in El. subst. split.
      * simpl. now rewrite Hkey.
      * unfold scan_invariant. cbn [flatten flat_map segment_text].
        rewrite token_cons. simpl. now rewrite <- app_assoc.
Qed.

Lemma well_formed_segments s :
  well_formed s = true ->
  exists segs, forallb segment_ok segs = true /\ s = flatten segs.
Proof.
  unfold well_formed, segments. intro H.
  destruct (scan s) as [[[| | |] segs]|] eqn:E; try discriminate.
  exists segs. apply (scan_sound _ E).
Qed.

(** *** Filling placeholders *)

Lemma fill_text key v w : flat_map (fill key v) (map Text w) = map Text w.
Proof. induction w as [|c w IH]; simpl; congruence. Qed.

Lemma fill_ok key v segs :
  brace_free v = true -> forallb segment_ok segs = true ->
  forallb segment_ok (flat_map (fill key v) segs) = true.
Proof.
  intros Hv. induction segs as [|seg segs IH]; intro Hok; [reflexivity|].
  simpl in Hok. apply andb_true_iff in Hok as [Hseg Hok].
  simpl. rewrite forallb_app, (IH Hok), andb_true_r.
  destruct seg as [c | k]; simpl in *; [now rewrite Hseg|].
  destruct (jsstring_eqb k key); simpl; [|now rewrite Hseg].
  unfold brace_free in Hv. rewrite forallb_forall in *.
  intros seg Hin. apply in_map_iff in Hin as (c & <- & Hin). now apply Hv.
Qed.

(** Filling the placeholders of two different keys, in either order. *)
Lemma fill_swap k1 v1 k2 v2 segs :
  k1 <> k2 ->
  flat_map (fill k1 v1) (flat_map (fill k2 v2) segs)
  = flat_map (fill k2 v2) (flat_map (fill k1 v1) segs).
Proof.
  intro Hne. induction segs as [|seg segs IH]; [reflexivity|].
  simpl. rewrite !flat_map_app, IH. f_equal.
  destruct seg as [c | k]; [reflexivity|]. simpl.
  destruct (jsstring_eqb k k2) eqn:E2, (jsstring_eqb k k1) eqn:E1.
  - apply jsstring_eqb_eq in E1, E2. congruence.
  - rewrite fill_text. simpl. now rewrite E2, app_nil_r.
  - rewrite fill_text. simpl. now rewrite E1, app_nil_r.
  - simpl. now rewrite E1, E2.
Qed.

End FillFacts.

(* ================================================================== *)
(** ** The rendering loop *)

Module LoopFacts.

Import Templates Placeholders RenderFacts FillFacts.

Lemma plain_key_brace_free key : plain_key key = true -> brace_free key = true.
Proof.
  unfold plain_key. intro H.
  apply andb_true_iff in H as [H _]. now apply andb_true_iff in H as [H _].
Qed.

(** On well-formed text, with plain keys and plain values, the loop
    fills the placeholders of its keys one key after the other. *)
Lemma plain_replacement_value variables key :
  plain_replacement variables key = true ->
  replacement variables key = Normal (value_text variables key)
  /\ plain_value (value_text variables key) = true.
Proof.
  unfold plain_replacement, value_text.
  destruct (replacement variables key); [now split | discriminate].
Qed.

Lemma render_fill variables keys : forall s1 s2,
  (forall key, In key keys ->
     plain_key key = true /\ plain_replacement variables key = true) ->
  forallb segment_ok s1 = true -> forallb segment_ok s2 = true ->
  fold_left (substitute variables) keys (Some (Normal (flatten s1, flatten s2)))
  = Some (Normal (flatten (fill_all variables keys s1),
                  flatten (fill_all variables keys s2))).
Proof.
  induction keys as [|key keys IH]; intros s1 s2 Hkeys H1 H2; [reflexivity|].
  destruct (Hkeys key (or_introl eq_refl)) as [Hk Hv].
  apply plain_replacement_value in Hv as [Hr Hv].
  apply andb_true_iff in Hv as [Hvb Hvd].
  cbn [fold_left substitute]. rewrite (compile_token _ Hk), Hr.
  rewrite !replace_flatten by auto using plain_key_brace_free.
  apply IH.
  - intros k Hin. apply Hkeys. now right.
  - now apply fill_ok.
  - now apply fill_ok.
Qed.

Lemma fill_all_ext variables variables' keys :
  (forall key, replacement variables key = replacement variables' key) ->
  forall segs, fill_all variables keys segs = fill_all variables' keys segs.
Proof.
  intro H. unfold fill_all, value_text.
  induction keys as [|key keys IH]; intro segs; [reflexivity|].
  simpl. rewrite H. apply IH.
Qed.

(** Distinct keys may be processed in any order. *)
Lemma fill_all_perm variables keys keys' :
  Permutation keys keys' -> NoDup keys ->
  forall segs, fill_all variables keys segs = fill_all variables keys' segs.
Proof.
  unfold fill_all.
  induction 1 as [|x l l' _ IH|x y l|l l' l'' P1 IH1 P2 IH2]; intros Hnd segs.
  - reflexivity.
  - simpl. apply IH. now inversion Hnd.
  - simpl. f_equal. apply fill_swap.
    inversion Hnd as [|? ? Hnot _]. intros ->. apply Hnot. now left.
  - rewrite IH1 by assumption. apply IH2.
    now apply (Permutation_NoDup P1).
Qed.

(** A mapping holds one value for each key, wherever the key is listed. *)
Lemma assoc_perm (A : Type) (variables variables' : list (jsstring * A)) :
  Permutation variables variables' -> NoDup (object_keys variables) ->
  forall key, assoc key variables = assoc key variables'.
Proof.
  unfold object_keys.
  induction 1 as [|[k a] l l' _ IH|[k1 a1] [k2 a2] l|l l' l'' P1 IH1 P2 IH2];
    intros Hnd key.
  - reflexivity.
  - simpl. destruct (jsstring_eqb key k); [reflexivity|].
    apply IH. now inversion Hnd.
  - simpl. destruct (jsstring_eqb key k2) eqn:E2, (jsstring_eqb key k1) eqn:E1;
      try reflexivity.
    apply jsstring_eqb_eq in E1, E2. subst.
    simpl in Hnd. inversion Hnd as [|? ? Hnot _]. exfalso. apply Hnot. now left.
  - rewrite IH1 by assumption. apply IH2.
    apply (Permutation_NoDup (Permutation_map fst P1) Hnd).
Qed.

End LoopFacts.

(** C9, as stated, fails: the keys [title] and [message] are not
    substrings of each other's tokens, yet the [notification] template
    renders differently in the two orders when the value of [title]
    holds the token of [message]. *)
Lemma render_order_counterexample :
  let first := [(js "title", JStr (js "{{message}}")); (js "message", JStr (js "M"))] in
  let second := [(js "message", JStr (js "M")); (js "title", JStr (js "{{message}}"))] in
  Placeholders.disjoint_tokens (object_keys first) = true
  /\ Permutation first second
  /\ Templates.render first Templates.notification_template
     <> Templates.render second Templates.notification_template.
Proof.
  intros first second. split; [reflexivity | split].
  - apply perm_swap.
  - vm_compute. discriminate.
Qed.

(** C9, amended. Take a template whose braces all belong to
    placeholders [{{key}}] with brace-free keys, and a variable mapping
    whose keys are distinct and plain and whose values convert to plain
    texts.  A key is plain when it holds none of the characters
    [^ $ \ . * + ? ( ) [ | { }] and is not a run of digits, a run of
    digits followed by a comma, or two runs of digits separated by a
    comma (which would turn the inner braces of its token into a
    quantifier); a text is plain when it holds no brace and no [$].
    Then rendering succeeds and gives the same subject and html in
    whatever order the keys are processed. *)
Theorem render_order_independent (t : Templates.template)
    (variables variables' : list (jsstring * jsval)) :
  Placeholders.well_formed (Templates.subject t) = true ->
  Placeholders.well_formed (Templates.html t) = true ->
  NoDup (object_keys variables) ->
  (forall key, In key (object_keys variables) ->
     Placeholders.plain_key key = true
     /\ Placeholders.plain_replacement variables key = true) ->
  Permutation variables variables' ->
  Templates.render variables' t = Templates.render variables t
  /\ exists subject html,
       Templates.render variables t = Some (Normal (subject, html)).
Proof.
  intros Hs Hh Hnd Hkeys Hperm.
  apply FillFacts.well_formed_segments in Hs as (s1 & Hs1 & Es).
  apply FillFacts.well_formed_segments in Hh as (s2 & Hs2 & Eh).
  assert (Hval : forall key,
             Templates.replacement variables key = Templates.replacement variables' key).
  { intro key. unfold Templates.replacement, Templates.variable.
    now rewrite (@LoopFacts.assoc_perm _ _ _ Hperm Hnd key). }
  assert (Pkeys : Permutation (object_keys variables) (object_keys variables')).
  { now apply Permutation_map. }
  assert (Hkeys' : forall key, In key (object_keys variables') ->
             Placeholders.plain_key key = true
             /\ Placeholders.plain_replacement variables' key = true).
  { intros key Hin. unfold Placeholders.plain_replacement. rewrite <- Hval.
    apply Hkeys. now apply (Permutation_in _ (Permutation_sym Pkeys)). }
  unfold Templates.render. rewrite Es, Eh.
  rewrite (@LoopFacts.render_fill variables _ s1 s2 Hkeys Hs1 Hs2).
  rewrite (@LoopFacts.render_fill variables' _ s1 s2 Hkeys' Hs1 Hs2).
  split; [|eauto].
  rewrite <- !(@LoopFacts.fill_all_ext variables variables' _ Hval).
  now rewrite <- !(@LoopFacts.fill_all_perm variables _ _ Pkeys Hnd).
Qed.

Lemma render_order_independent_witness :
  let zero := JNum (num "0" eq_refl) in
  let first := [(js "title", JStr (js "News")); (js "message", zero)] in
  let second := [(js "message", zero); (js "title", JStr (js "News"))] in
  Templates.render second Templates.notification_template
  = Templates.render first Templates.notification_template
  /\ exists subject html,
       Templates.render first Templates.notification_template
       = Some (Normal (subject, html)).
Proof.
  intros zero first second.
  apply (@render_order_independent Templates.notification_template first second).
  - reflexivity.
  - reflexivity.
  - repeat constructor; simpl; intuition discriminate.
  - intros key [<- | [<- | []]]; split; reflexivity.
  - apply perm_swap.
Defined.

(* ================================================================== *)
(** ** What the loop does to placeholders *)

Module PlaceholderFacts.

Import Templates Placeholders RenderFacts.

Lemma fill_keeps key v k segs :
  k <> key -> In (Placeholder k) segs ->
  In (Placeholder k) (flat_map (fill key v) segs).
Proof.
  intros Hne Hin. apply in_flat_map. exists (Placeholder k). split; [assumption|].
  simpl. rewrite (jsstring_eqb_neq Hne). now left.
Qed.

Lemma fill_adds_none key v k segs :
  In (Placeholder k) (flat_map (fill key v) segs) ->
  In (Placeholder k) segs /\ k <> key.
Proof.
  intro Hin. apply in_flat_map in Hin as ([c | k'] & Hseg & Hin); simpl in Hin.
  - destruct Hin as [[=] | []].
  - destruct (jsstring_eqb k' key) eqn:E.
    + apply in_map_iff in Hin as (c & [=] & _).
    + destruct Hin as [[= ->] | []]. split; [assumption|].
      intros ->. now rewrite jsstring_eqb_refl in E.
Qed.

(** After the loop no placeholder of a key of the mapping is left, and
    the placeholders of every other key are all still there. *)
Lemma fill_all_placeholders variables keys : forall segs k,
  In (Placeholder k) (fill_all variables keys segs)
  <-> In (Placeholder k) segs /\ ~ In k keys.
Proof.
  unfold fill_all. induction keys as [|key keys IH]; intros segs k; simpl.
  - tauto.
  - rewrite IH. split.
    + intros [Hin Hnot]. apply fill_adds_none in Hin as [Hin Hne].
      split; [assumption|]. intros [-> | H]; [congruence | contradiction].
    + intros [Hin Hnot]. split.
      * apply fill_keeps; [|assumption]. intros ->. apply Hnot. now left.
      * intro H. apply Hnot. now right.
Qed.

End PlaceholderFacts.

(** C2. The claim fails on the code.  The value ["$&"] is not what
    replaces [{{name}}]: [replace] reads it as "the matched text", so the
    [welcome] template comes out unchanged.  And the key is not matched
    exactly: it is spliced into the pattern unescaped, so the key ["n.me"]
    replaces [{{name}}], the placeholder of a key that is absent from the
    mapping. *)
Theorem render_not_literal :
  Templates.render [(js "name", JStr (js "$&"))] Templates.welcome_template
  = Some (Normal (Templates.subject Templates.welcome_template,
                  Templates.html Templates.welcome_template))
  /\ Placeholders.occurs (Templates.token (js "name"))
       (Templates.html Templates.welcome_template) = true
  /\ Placeholders.occurs (js "$&") (Templates.html Templates.welcome_template) = false
  /\ exists subject html,
       Templates.render [(js "n.me", JStr (js "X"))] Templates.welcome_template
       = Some (Normal (subject, html))
       /\ Placeholders.occurs (Templates.token (js "name")) html = false
       /\ Placeholders.occurs (js "<h1>Welcome X!</h1>") html = true.
Proof.
  split; [vm_compute; reflexivity|].
  split; [vm_compute; reflexivity|].
  split; [vm_compute; reflexivity|].
  eexists. eexists. split; [vm_compute; reflexivity|].
  split; vm_compute; reflexivity.
Qed.

(* ================================================================== *)
(** ** The transport factory *)

Module TransporterFacts.

Lemma recognised env :
  createTransporter env (JStr (js "gmail")) = Normal (FromProfile (gmail_profile env))
  /\ createTransporter env (JStr (js "outlook"))
     = Normal (FromProfile (outlook_profile env))
  /\ createTransporter env (JStr (js "smtp")) = Normal (FromProfile (smtp_profile env)).
Proof. repeat split. Qed.

Lemma absent env :
  createTransporter env JUndefined = Normal (FromProfile (gmail_profile env)).
Proof. reflexivity. Qed.

(** The fallback, for a selector that names neither a profile nor a
    property every object inherits. *)
Lemma fallback env s :
  existsb (jsstring_eqb s) provider_names = false ->
  existsb (jsstring_eqb s) object_prototype_names = false ->
  createTransporter env (JStr s) = Normal (FromProfile (gmail_profile env)).
Proof.
  intros Hp Ho. unfold createTransporter, get_property. cbn [to_string bind].
  simpl in Hp. rewrite !orb_false_iff in Hp. destruct Hp as (H1 & H2 & H3 & _).
  unfold config, assoc. now rewrite H1, H2, H3, Ho.
Qed.

End TransporterFacts.

(** C6. The claim fails on the code.  The selector ["constructor"] is none
    of the three provider names, yet the client is not built from the
    gmail profile: [config["constructor"]] is the truthy value every
    object inherits, and that is what [nodemailer.createTransport] is
    given. *)
Theorem createTransporter_inherited_selector env :
  existsb (jsstring_eqb (js "constructor")) provider_names = false
  /\ createTransporter env (JStr (js "constructor"))
     = Normal (FromInherited (js "constructor"))
  /\ createTransporter env (JStr (js "constructor"))
     <> Normal (FromProfile (gmail_profile env)).
Proof.
  split; [reflexivity | split; [reflexivity | discriminate]].
Qed.

(* ================================================================== *)
(** ** Templated send *)

Module SendTemplateEmailFacts.

Import Templates SendTemplateEmail.

(** An identifier that names neither a template nor an inherited
    property is answered 400 with the identifiers of the registry. *)
Lemma unknown_rejected env send req name :
  truthy (to req) = true -> validateEmail (to req) = Normal true ->
  truthy (template req) = true ->
  to_string (template req) = Normal name ->
  get_property templates name = Absent ->
  handler env send req
  = Some (respond 400
            (TemplateNotFoundBody (js "Template not found")
               [js "welcome"; js "art_submission"; js "reset_password";
                js "notification"]),
          []).
Proof.
  intros Hto Hv Ht Hn Hp. unfold handler, attempt.
  now rewrite Hto, Ht, Hv, Hn, Hp.
Qed.

Lemma capitalised_rejected env send to_ from_ service_ variables_ :
  truthy to_ = true -> validateEmail to_ = Normal true ->
  handler env send
    {| to := to_; template := JStr (js "Welcome"); variables := variables_;
       service := service_; from := from_ |}
  = Some (respond 400
            (TemplateNotFoundBody (js "Template not found")
               [js "welcome"; js "art_submission"; js "reset_password";
                js "notification"]),
          []).
Proof.
  intros Hto Hv. now apply unknown_rejected with (name := js "Welcome").
Qed.

(** What [dispatch] does once the client is built. *)
Lemma dispatch_built env send req subject html t :
  createTransporter env (default_to (JStr (js "gmail")) (service req)) = Normal t ->
  exists m,
    mail_to m = to req /\ mail_subject m = subject /\ mail_html m = html
    /\ mail_from m = sender env (from req)
    /\ dispatch env send req subject html
       = Normal
           (match send t 0 m with
            | Resolved info =>
                respond 200
                  (TemplateSentBody (js "Template email sent successfully")
                     (messageId info) (template req))
            | Rejected message => respond 500 (FailureBody failed (Message message))
            end,
            [CreateTransport t; SendMail t m]).
Proof.
  intro Ht. unfold dispatch. rewrite Ht. cbn [bind].
  exists {| mail_from := sender env (from req); mail_to := to req;
            mail_subject := subject; mail_text := JUndefined;
            mail_html := html; mail_attachments := JUndefined |}.
  do 4 (split; [reflexivity|]). unfold caught.
  now destruct (send _ _ _).
Qed.

End SendTemplateEmailFacts.

(** C5. The claim fails on the code.  The identifier ["constructor"] is
    none of the four registry entries, yet a request for it with a valid
    [to] address is not answered 400: [templates["constructor"]] is the
    truthy value every object inherits, so the handler goes on and sends
    a mail whose subject and html are [undefined]. *)
Theorem template_inherited_identifier env send :
  let req := {| SendTemplateEmail.to := JStr (js "a@b.com");
                SendTemplateEmail.template := JStr (js "constructor");
                SendTemplateEmail.variables := JUndefined;
                SendTemplateEmail.service := JUndefined;
                SendTemplateEmail.from := JUndefined |} in
  validateEmail (SendTemplateEmail.to req) = Normal true
  /\ existsb (jsstring_eqb (js "constructor")) (object_keys Templates.templates) = false
  /\ exists res trace,
       SendTemplateEmail.handler env send req = Some (res, trace)
       /\ status res <> 400
       /\ sends trace = 1
       /\ exists t m, In (SendMail t m) trace
            /\ mail_subject m = JUndefined /\ mail_html m = JUndefined.
Proof.
  intro req. split; [reflexivity | split; [reflexivity|]].
  destruct (@SendTemplateEmailFacts.dispatch_built env send req JUndefined JUndefined
              (FromProfile (gmail_profile env)) eq_refl)
    as (m & _ & Hs & Hh & _ & Hd).
  unfold SendTemplateEmail.handler, SendTemplateEmail.attempt.
  cbn -[SendTemplateEmail.dispatch]. rewrite Hd.
  do 2 eexists. split; [reflexivity|].
  split; [now destruct (send _ _ _)|]. split; [reflexivity|].
  exists (FromProfile (gmail_profile env)), m.
  repeat split; try assumption. right. now left.
Qed.

(* ================================================================== *)
(** * Further properties of the code *)

(** ** The validator on accepted strings and on values that are not strings *)

Module ValidatorEdgeFacts.

Import ValidatorFacts.

Lemma run_count s :
  Forall (fun c => addr_char c = true) s ->
  count_occ N.eq_dec s Chars.at_sign = 0.
Proof.
  intro H. apply count_occ_not_In. now apply run_no_at.
Qed.

Lemma run_no_space s :
  Forall (fun c => addr_char c = true) s ->
  forallb (fun c => negb (is_space c)) s = true.
Proof.
  intro H. apply forallb_forall. intros c Hin.
  rewrite Forall_forall in H. specialize (H c Hin).
  unfold addr_char in H. now apply andb_true_iff in H as [H _].
Qed.

(** The printed form of a number holds no [@]. *)
Lemma numeral_no_at (n : number) : ~ In Chars.at_sign (numeral n).
Proof.
  pose proof (numeral_ok n) as H. unfold is_numeral in H.
  destruct (numeral n) as [|c s] eqn:E; [intros []|].
  apply orb_true_iff in H as [H | H]; [apply orb_true_iff in H as [H | H]|].
  - intro Hin. rewrite forallb_forall in H. now specialize (H _ Hin).
  - apply RenderFacts.jsstring_eqb_eq in H. rewrite H. vm_compute.
    intuition discriminate.
  - apply RenderFacts.jsstring_eqb_eq in H. rewrite H. vm_compute.
    intuition discriminate.
Qed.

Lemma no_at_rejected s :
  ~ In Chars.at_sign s -> validateEmail (JStr s) = Normal false.
Proof.
  intro Hno. apply validateEmail_false. intro H.
  apply validateEmail_shape in H as (a & b & c & -> & _).
  apply Hno, in_or_app. right. now left.
Qed.

End ValidatorEdgeFacts.

(** X1. A string that [validateEmail] accepts has the shape of the
    pattern; in particular it holds exactly one [@] and no white space. *)
Theorem validateEmail_accepted (s : jsstring) :
  validateEmail (JStr s) = Normal true ->
  address_shape s
  /\ count_occ N.eq_dec s Chars.at_sign = 1
  /\ forallb (fun c => negb (is_space c)) s = true.
Proof.
  intro H. apply ValidatorFacts.validateEmail_shape in H.
  split; [assumption|].
  destruct H as (a & b & c & -> & [_ Ha] & [_ Hb] & [_ Hc]).
  split.
  - rewrite count_occ_app, count_occ_cons_eq by reflexivity.
    rewrite count_occ_app, count_occ_cons_neq by discriminate.
    now rewrite !ValidatorEdgeFacts.run_count.
  - rewrite forallb_app. simpl. rewrite forallb_app. simpl.
    now rewrite !ValidatorEdgeFacts.run_no_space.
Qed.

Lemma validateEmail_accepted_witness :
  address_shape (js "jo.doe@mail.example.org")
  /\ count_occ N.eq_dec (js "jo.doe@mail.example.org") Chars.at_sign = 1
  /\ forallb (fun c => negb (is_space c)) (js "jo.doe@mail.example.org") = true.
Proof.
  apply (@validateEmail_accepted (js "jo.doe@mail.example.org")). reflexivity.
Defined.

(** X2. [validateEmail] rejects every value that is neither a string,
    an array nor an object: [undefined], [null], the booleans and the
    numbers.  Their string forms hold no [@]. *)
Theorem validateEmail_rejects_scalars (v : jsval) :
  non_string_scalar v = true -> validateEmail v = Normal false.
Proof.
  destruct v as [| |[|]|n| | |]; try discriminate; intros _; try reflexivity.
  apply ValidatorEdgeFacts.no_at_rejected, ValidatorEdgeFacts.numeral_no_at.
Qed.

Lemma validateEmail_rejects_scalars_witness :
  validateEmail (JNum (num "42" eq_refl)) = Normal false
  /\ validateEmail JNull = Normal false.
Proof.
  split; apply validateEmail_rejects_scalars; reflexivity.
Defined.

(* ================================================================== *)
(** ** Single send: the address gates and the outcome *)

Module SingleFacts.

Import SendEmail SingleGates.

Lemma present_gate req :
  negb (truthy (to req)) || negb (truthy (subject req))
  || (negb (truthy (text req)) && negb (truthy (html req)))
  = negb (present req).
Proof.
  unfold present.
  now destruct (truthy (to req)), (truthy (subject req)), (truthy (text req)),
    (truthy (html req)).
Qed.

Lemma attachments_expected a :
  default_to (JArr []) a = Expected.attachments a.
Proof. reflexivity. Qed.

(** The test of the sender, made only when [from] is truthy. *)
Lemma from_accepted req :
  negb (truthy (from req)) || accepted (validateEmail (from req)) = true ->
  (if truthy (from req)
   then (valid_from <- validateEmail (from req) ;; Normal (negb valid_from))
   else Normal false) = Normal false.
Proof.
  destruct (truthy (from req)); [|reflexivity]. simpl.
  now destruct (validateEmail (from req)) as [[|]|].
Qed.

(** Past the gates, with the client built: one client, one mail, and an
    answer that follows the provider. *)
Lemma single_past_gates env send req t :
  valid req = true ->
  createTransporter env (Expected.selector (service req)) = Normal t ->
  handler env send req
  = (match send t 0 (mail env req) with
     | Resolved info =>
         respond 200
           (SentBody (js "Email sent successfully") (messageId info) (response info))
     | Rejected message =>
         respond 500 (FailureBody (js "Failed to send email") (Message message))
     end,
     [CreateTransport t; SendMail t (mail env req)]).
Proof.
  unfold valid. intros H Ht.
  apply andb_true_iff in H as [H Hf]. apply andb_true_iff in H as [Hp Hv].
  unfold handler, attempt. rewrite present_gate, Hp. cbn [negb].
  destruct (validateEmail (to req)) as [[|]|]; try discriminate. cbn [bind negb].
  rewrite (from_accepted req Hf). cbn [bind].
  rewrite SendBulkEmailFacts.selector_expected, Ht. cbn [bind].
  rewrite attachments_expected, SendBulkEmailFacts.sender_expected.
  fold (mail env req). unfold caught. now destruct (send _ _ _).
Qed.

(** Past the gates, with a selector that cannot be converted. *)
Lemma single_client_throws env send req e :
  valid req = true ->
  createTransporter env (Expected.selector (service req)) = Throw e ->
  handler env send req = caught failed e [].
Proof.
  unfold valid. intros H Ht.
  apply andb_true_iff in H as [H Hf]. apply andb_true_iff in H as [Hp Hv].
  unfold handler, attempt. rewrite present_gate, Hp. cbn [negb].
  destruct (validateEmail (to req)) as [[|]|]; try discriminate. cbn [bind negb].
  rewrite (from_accepted req Hf). cbn [bind].
  now rewrite SendBulkEmailFacts.selector_expected, Ht.
Qed.

(** A request stopped at the gates is answered 400, or 500 when the test
    of an address throws; nothing is built or sent. *)
Lemma before_gates env send req :
  valid req = false ->
  (status (fst (handler env send req)) = 400 /\ snd (handler env send req) = [])
  \/ exists e,
       handler env send req = caught failed e []
       /\ (validateEmail (to req) = Throw e
           \/ (truthy (from req) = true /\ validateEmail (from req) = Throw e)).
Proof.
  unfold valid, handler, attempt. rewrite present_gate. intro H.
  destruct (present req); [|left; now split]. cbn [negb orb andb] in *.
  destruct (validateEmail (to req)) as [[|]|e]; cbn [bind negb].
  - simpl in H. destruct (truthy (from req)); [|discriminate].
    destruct (validateEmail (from req)) as [[|]|e]; [discriminate| |].
    + left. now split.
    + right. exists e. split; [reflexivity|]. right. now split.
  - left. now split.
  - right. exists e. split; [reflexivity|]. now left.
Qed.

End SingleFacts.

(** X3. Whatever the request and the provider, the single send handler
    ends in one of three ways.  It answers 400, having built no client
    and sent nothing.  Or converting an address or the provider selector
    to a string throws, and it answers 500 with the message of what was
    thrown, having built no client and sent nothing.  Or it builds one
    client, for the selector of the request ([gmail] when none is
    given), and sends exactly one mail, to the address of the request,
    which passed validation, as did [from] if one was given; it then
    answers 200 if the provider accepted the mail and 500 if not. *)
Theorem single_send_outcomes env send (req : SendEmail.request) :
  (status (fst (SendEmail.handler env send req)) = 400
   /\ snd (SendEmail.handler env send req) = [])
  \/ (exists e,
        SendEmail.handler env send req
        = (respond 500 (FailureBody (js "Failed to send email") (message_of e)), [])
        /\ (validateEmail (SendEmail.to req) = Throw e
            \/ (truthy (SendEmail.from req) = true
                /\ validateEmail (SendEmail.from req) = Throw e)
            \/ createTransporter env (Expected.selector (SendEmail.service req))
               = Throw e))
  \/ (exists t,
        createTransporter env (Expected.selector (SendEmail.service req)) = Normal t
        /\ snd (SendEmail.handler env send req)
           = [CreateTransport t; SendMail t (SingleGates.mail env req)]
        /\ validateEmail (SendEmail.to req) = Normal true
        /\ (truthy (SendEmail.from req) = true ->
            validateEmail (SendEmail.from req) = Normal true)
        /\ status (fst (SendEmail.handler env send req))
           = if is_rejected (send t 0 (SingleGates.mail env req))
             then 500 else 200).
Proof.
  destruct (SingleGates.valid req) eqn:Hv.
  - destruct (createTransporter env (Expected.selector (SendEmail.service req)))
      as [t|e] eqn:Ht.
    + right. right. exists t. split; [reflexivity|].
      rewrite (SingleFacts.single_past_gates env send req Hv Ht).
      unfold SingleGates.valid in Hv.
      apply andb_true_iff in Hv as [Hv Hf]. apply andb_true_iff in Hv as [_ Hto].
      split; [reflexivity|]. split; [|split].
      * now destruct (validateEmail (SendEmail.to req)) as [[|]|].
      * intro Hfrom. rewrite Hfrom in Hf.
        now destruct (validateEmail (SendEmail.from req)) as [[|]|].
      * now destruct (send _ _ _).
    + right. left. exists e. split; [|now right; right].
      apply (SingleFacts.single_client_throws env send req Hv Ht).
  - destruct (SingleFacts.before_gates env send req Hv) as [H | (e & H & Hw)].
    + now left.
    + right. left. exists e. split; [exact H|]. destruct Hw as [Hw | Hw]; auto.
Qed.

(** X4. With [to], [subject] and a body present, an address that fails
    validation is answered 400 before any client is built: the recipient
    first, then the sender, which is checked only when [from] is truthy. *)
Theorem single_send_invalid_address env send (req : SendEmail.request) :
  SingleGates.present req = true ->
  (validateEmail (SendEmail.to req) = Normal false ->
   SendEmail.handler env send req
   = (respond 400 (ErrorBody (js "Invalid recipient email address")), []))
  /\ (validateEmail (SendEmail.to req) = Normal true ->
      truthy (SendEmail.from req) = true ->
      validateEmail (SendEmail.from req) = Normal false ->
      SendEmail.handler env send req
      = (respond 400 (ErrorBody (js "Invalid sender email address")), [])).
Proof.
  intro Hp. unfold SendEmail.handler, SendEmail.attempt.
  rewrite SingleFacts.present_gate, Hp. cbn [negb].
  split.
  - now intros ->.
  - now intros -> -> ->.
Qed.

Lemma single_send_invalid_address_witness :
  let base (to_ from_ : jsval) :=
    {| SendEmail.to := to_;
       SendEmail.subject := JStr (js "Hello");
       SendEmail.text := JStr (js "Hi there");
       SendEmail.html := JUndefined;
       SendEmail.from := from_;
       SendEmail.service := JUndefined;
       SendEmail.attachments := JUndefined |} in
  let send : provider := fun _ _ _ => Rejected JNull in
  SendEmail.handler (fun _ => None) send (base (JStr (js "nobody")) JUndefined)
  = (respond 400 (ErrorBody (js "Invalid recipient email address")), [])
  /\ SendEmail.handler (fun _ => None) send
       (base (JStr (js "a@x.org")) (JStr (js "me at home")))
     = (respond 400 (ErrorBody (js "Invalid sender email address")), []).
Proof.
  intros base send. split.
  - apply (proj1 (@single_send_invalid_address (fun _ => None) send
                    (base (JStr (js "nobody")) JUndefined) eq_refl)).
    reflexivity.
  - apply (proj2 (@single_send_invalid_address (fun _ => None) send
                    (base (JStr (js "a@x.org")) (JStr (js "me at home"))) eq_refl));
      reflexivity.
Defined.

(** X5. A single send request that passes validation, once the client
    [t] is built for its selector ([gmail] when [service] is absent),
    hands the provider one mail [m] with the request's [to], [subject],
    [text] and [html] as given, the attachments (the empty array when
    the field is absent) and the sender, which is [from] when truthy,
    else [DEFAULT_FROM_EMAIL] when set and not empty, else [GMAIL_USER].
    The answer forwards what the provider returns: 200 with its
    [messageId] and [response], or 500 with the message of its error,
    unaltered. *)
Theorem single_send_forwards env send (req : SendEmail.request) t :
  SingleGates.valid req = true ->
  createTransporter env (Expected.selector (SendEmail.service req)) = Normal t ->
  let m :=
    {| mail_from := Expected.sender env (SendEmail.from req);
       mail_to := SendEmail.to req;
       mail_subject := SendEmail.subject req;
       mail_text := SendEmail.text req;
       mail_html := SendEmail.html req;
       mail_attachments := Expected.attachments (SendEmail.attachments req) |} in
  (forall info, send t 0 m = Resolved info ->
     SendEmail.handler env send req
     = (respond 200
          (SentBody (js "Email sent successfully") (messageId info) (response info)),
        [CreateTransport t; SendMail t m]))
  /\ (forall message, send t 0 m = Rejected message ->
       SendEmail.handler env send req
       = (respond 500 (FailureBody (js "Failed to send email") (Message message)),
          [CreateTransport t; SendMail t m])).
Proof.
  intros Hv Ht m. rewrite (SingleFacts.single_past_gates env send req Hv Ht).
  fold (SingleGates.mail env req) in m. subst m.
  split; intros x Hx; now rewrite Hx.
Qed.

Lemma single_send_forwards_witness :
  let req :=
    {| SendEmail.to := JStr (js "a@x.org");
       SendEmail.subject := JStr (js "Hello");
       SendEmail.text := JUndefined;
       SendEmail.html := JStr (js "<p>Hi</p>");
       SendEmail.from := JStr [];
       SendEmail.service := JStr (js "smtp");
       SendEmail.attachments := JUndefined |} in
  let send : provider := fun _ _ _ => Rejected (JStr (js "Invalid login")) in
  let env : environment :=
    fun name => if String.eqb name "GMAIL_USER" then Some (js "me@x.org") else None in
  let t := FromProfile (smtp_profile env) in
  let m :=
    {| mail_from := JStr (js "me@x.org");
       mail_to := JStr (js "a@x.org");
       mail_subject := JStr (js "Hello");
       mail_text := JUndefined;
       mail_html := JStr (js "<p>Hi</p>");
       mail_attachments := JArr [] |} in
  SendEmail.handler env send req
  = (respond 500 (FailureBody (js "Failed to send email")
                    (Message (JStr (js "Invalid login")))),
     [CreateTransport t; SendMail t m]).
Proof.
  intros req send env t m.
  apply (proj2 (@single_send_forwards env send req t eq_refl eq_refl)). reflexivity.
Defined.

(* ================================================================== *)
(** ** Bulk send: the loop *)

Module BulkLoopFacts.

Import SendBulkEmail BulkGates BulkMail.

Lemma send_each_trace send t mail l : forall st,
  trace (send_each send t mail l st)
  = trace st ++ map (fun r => SendMail t (mail r)) l.
Proof.
  induction l as [|r l IH]; intro st; simpl.
  - now rewrite app_nil_r.
  - rewrite IH. unfold send_one.
    destruct (send t _ _); simpl; now rewrite <- app_assoc.
Qed.

Lemma send_each_lists send t mail l : forall st,
  map result_email (results (send_each send t mail l st))
  = map result_email (results st) ++ delivered send t mail (sends (trace st)) l
  /\ map error_email (errors (send_each send t mail l st))
     = map error_email (errors st) ++ refused send t mail (sends (trace st)) l.
Proof.
  induction l as [|r l IH]; intro st; simpl.
  - now rewrite !app_nil_r.
  - destruct (IH (send_one send t mail st r)) as [E1 E2]. rewrite E1, E2.
    destruct (SendBulkEmailFacts.send_one_counts send t mail st r) as [_ Hn].
    simpl in Hn. rewrite Hn. unfold send_one.
    destruct (send t (sends (trace st)) (mail r)); simpl;
      rewrite ?map_app, <- ?app_assoc; now split.
Qed.

Lemma split_recipients send t mail l : forall i,
  Permutation (delivered send t mail i l ++ refused send t mail i l) l.
Proof.
  induction l as [|r l IH]; intro i; simpl; [constructor|].
  destruct (is_rejected (send t i (mail r))); simpl.
  - apply Permutation_sym, Permutation_cons_app, Permutation_sym, IH.
  - constructor. apply IH.
Qed.





(** The answer past the gates, with the trace and the two lists read
    off the loop. *)
Lemma bulk_past_gates env send req t :
  gate1 req = true -> gate2 req = true -> invalid req = Normal [] ->
  List.length (elements (recipients req)) <= 50 ->
  createTransporter env (Expected.selector (service req)) = Normal t ->
  let l := elements (recipients req) in
  let ok := delivered send t (mail env req) 0 l in
  let ko := refused send t (mail env req) 0 l in
  exists results errors,
    handler env send req
    = (respond 200
         (BulkBody (Expected.summary (List.length ok) (List.length ko))
            results errors),
       CreateTransport t :: map (fun r => SendMail t (mail env req r)) l)
    /\ map result_email results = ok
    /\ map error_email errors = ko.
Proof.
  intros H1 H2 H3 H4 Ht l ok ko.
  rewrite (@SendBulkEmailFacts.validated env send req H1 H2 H3 H4 t Ht).
  fold l.
  destruct (send_each_lists send t (mail env req) l
              {| results := []; errors := []; trace := [CreateTransport t] |})
    as [E1 E2].
  set (final := send_each send t (mail env req) l _) in *.
  simpl in E1, E2. change (sends [CreateTransport t]) with 0 in E1, E2.
  fold ok in E1. fold ko in E2.
  exists (results final), (errors final).
  split; [|now split].
  rewrite <- E1, <- E2, !length_map. f_equal.
  subst final. now rewrite send_each_trace.
Qed.

End BulkLoopFacts.

(** X6. A bulk request that passes validation, once the client [t] is
    built for its selector ([gmail] when [service] is absent), hands the
    provider one mail per recipient, in the order of the recipients
    list, each with the subject, text and html of the request, no
    attachments, and the same sender: [from] when truthy, else
    [DEFAULT_FROM_EMAIL] when set and not empty, else [GMAIL_USER].
    This does not depend on which sends fail.  The answer is 200. *)
Theorem bulk_sends_in_order env send (req : SendBulkEmail.request) t :
  BulkGates.gate1 req = true -> BulkGates.gate2 req = true ->
  BulkGates.invalid req = Normal [] ->
  List.length (SendBulkEmail.elements (SendBulkEmail.recipients req)) <= 50 ->
  createTransporter env (Expected.selector (SendBulkEmail.service req)) = Normal t ->
  status (fst (SendBulkEmail.handler env send req)) = 200
  /\ snd (SendBulkEmail.handler env send req)
     = CreateTransport t
       :: map (fun r =>
                 SendMail t
                   {| mail_from := Expected.sender env (SendBulkEmail.from req);
                      mail_to := r;
                      mail_subject := SendBulkEmail.subject req;
                      mail_text := SendBulkEmail.text req;
                      mail_html := SendBulkEmail.html req;
                      mail_attachments := JUndefined |})
            (SendBulkEmail.elements (SendBulkEmail.recipients req)).
Proof.
  intros H1 H2 H3 H4 Ht.
  destruct (BulkLoopFacts.bulk_past_gates env send req H1 H2 H3 H4 Ht)
    as (results & errors & -> & _).
  split; reflexivity.
Qed.

Lemma bulk_sends_in_order_witness :
  let req := {| SendBulkEmail.recipients :=
                  JArr [JStr (js "a@x.org"); JStr (js "b@x.org")];
                SendBulkEmail.subject := JStr (js "Hello");
                SendBulkEmail.text := JStr (js "Hi there");
                SendBulkEmail.html := JUndefined;
                SendBulkEmail.from := JUndefined;
                SendBulkEmail.service := JUndefined |} in
  let send : provider := fun _ _ _ => Rejected (JStr (js "Connection refused")) in
  let env : environment :=
    fun name => if String.eqb name "DEFAULT_FROM_EMAIL" then Some (js "noreply@x.org")
                else None in
  let t := FromProfile (gmail_profile env) in
  let mail r :=
    {| mail_from := JStr (js "noreply@x.org"); mail_to := r;
       mail_subject := JStr (js "Hello"); mail_text := JStr (js "Hi there");
       mail_html := JUndefined; mail_attachments := JUndefined |} in
  status (fst (SendBulkEmail.handler env send req)) = 200
  /\ snd (SendBulkEmail.handler env send req)
     = [CreateTransport t;
        SendMail t (mail (JStr (js "a@x.org")));
        SendMail t (mail (JStr (js "b@x.org")))].
Proof.
  intros req send env t mail.
  apply (@bulk_sends_in_order env send req t); try reflexivity.
  vm_compute. lia.
Defined.

(** X7. The answer to a validated bulk request, once the client is
    built, splits the recipients in two: [results] lists, in order, the
    recipients whose send the provider resolved, [errors] those it
    rejected; every recipient is in exactly one of the two, and the
    message reads [Bulk email completed. <sent> sent, <failed> failed]
    with the lengths of the two lists in decimal. *)
Theorem bulk_results_partition env send (req : SendBulkEmail.request) t :
  BulkGates.gate1 req = true -> BulkGates.gate2 req = true ->
  BulkGates.invalid req = Normal [] ->
  List.length (SendBulkEmail.elements (SendBulkEmail.recipients req)) <= 50 ->
  createTransporter env (Expected.selector (SendBulkEmail.service req)) = Normal t ->
  let l := SendBulkEmail.elements (SendBulkEmail.recipients req) in
  let ok := BulkMail.delivered send t (BulkMail.mail env req) 0 l in
  let ko := BulkMail.refused send t (BulkMail.mail env req) 0 l in
  exists results errors,
    fst (SendBulkEmail.handler env send req)
    = respond 200
        (BulkBody
           (js "Bulk email completed. "
            ++ js (NilZero.string_of_uint (Nat.to_uint (List.length results)))
            ++ js " sent, "
            ++ js (NilZero.string_of_uint (Nat.to_uint (List.length errors)))
            ++ js " failed")
           results errors)
    /\ map result_email results = ok
    /\ map error_email errors = ko
    /\ Permutation (ok ++ ko) l.
Proof.
  intros H1 H2 H3 H4 Ht l ok ko.
  destruct (BulkLoopFacts.bulk_past_gates env send req H1 H2 H3 H4 Ht)
    as (results & errors & -> & E1 & E2).
  fold l ok ko in E1, E2.
  exists results, errors. cbn [fst].
  split; [|split; [exact E1 | split; [exact E2|]]].
  - unfold Expected.summary. fold l. fold ok. fold ko.
    now rewrite <- E1, <- E2, !length_map.
  - apply BulkLoopFacts.split_recipients.
Qed.

Lemma bulk_results_partition_witness :
  let req := {| SendBulkEmail.recipients :=
                  JArr [JStr (js "a@x.org"); JStr (js "b@x.org"); JStr (js "c@x.org")];
                SendBulkEmail.subject := JStr (js "Hello");
                SendBulkEmail.text := JUndefined;
                SendBulkEmail.html := JStr (js "<p>Hi</p>");
                SendBulkEmail.from := JUndefined;
                SendBulkEmail.service := JUndefined |} in
  let send : provider := fun _ n _ =>
    if n =? 0 then Rejected (JStr (js "Mailbox unavailable"))
    else Resolved {| messageId := JStr (js "<id>"); response := JStr (js "250 OK") |} in
  let env : environment := fun _ => None in
  exists results errors,
    fst (SendBulkEmail.handler env send req)
    = respond 200
        (BulkBody
           (js "Bulk email completed. "
            ++ js (NilZero.string_of_uint (Nat.to_uint (List.length results)))
            ++ js " sent, "
            ++ js (NilZero.string_of_uint (Nat.to_uint (List.length errors)))
            ++ js " failed")
           results errors)
    /\ map result_email results = [JStr (js "b@x.org"); JStr (js "c@x.org")]
    /\ map error_email errors = [JStr (js "a@x.org")]
    /\ Permutation
         ([JStr (js "b@x.org"); JStr (js "c@x.org")] ++ [JStr (js "a@x.org")])
         [JStr (js "a@x.org"); JStr (js "b@x.org"); JStr (js "c@x.org")].
Proof.
  intros req send env.
  apply (@bulk_results_partition env send req (FromProfile (gmail_profile env)));
    try reflexivity.
  vm_compute. lia.
Defined.


(* ================================================================== *)
(** ** Rendering: which tokens are in the output *)

Module OccursFacts.

Import Templates Placeholders RenderFacts FillFacts.

Lemma is_prefix_app t r : is_prefix t (t ++ r) = true.
Proof.
  induction t as [|c t IH]; [reflexivity|].
  simpl. unfold cu_eqb. now rewrite N.eqb_refl.
Qed.

Lemma is_prefix_inv t : forall s, is_prefix t s = true -> exists r, s = t ++ r.
Proof.
  induction t as [|c t IH]; intros s H; [now exists s|].
  destruct s as [|x s]; [discriminate|]. simpl in H.
  apply andb_true_iff in H as [Hc H]. apply N.eqb_eq in Hc. subst x.
  destruct (IH s H) as [r ->]. now exists r.
Qed.

Lemma occurs_prefix t s : is_prefix t s = true -> occurs t s = true.
Proof. intro H. destruct s; simpl in *; now rewrite H. Qed.

Lemma occurs_tail t c s : occurs t s = true -> occurs t (c :: s) = true.
Proof. intro H. simpl. rewrite H. apply orb_true_r. Qed.

Lemma occurs_app_r t w s : occurs t s = true -> occurs t (w ++ s) = true.
Proof.
  intro H. induction w as [|c w IH]; [assumption|]. now apply occurs_tail.
Qed.

(** A token is not found where the text has no opening brace. *)
Lemma occurs_no_open t w s :
  (forall c, In c w -> cu_eqb c Chars.lbrace = false) ->
  occurs (Chars.lbrace :: t) (w ++ s) = occurs (Chars.lbrace :: t) s.
Proof.
  induction w as [|c w IH]; intro Hw; [reflexivity|].
  cbn [app occurs is_prefix].
  rewrite cu_eqb_sym, (Hw c (or_introl eq_refl)). cbn [andb orb].
  apply IH. intros c' Hin. apply Hw. now right.
Qed.

(** In a well-formed text the tokens found are those of its
    placeholders. *)
Lemma occurs_token k segs :
  brace_free k = true -> forallb segment_ok segs = true ->
  occurs (token k) (flatten segs) = true <-> In (Placeholder k) segs.
Proof.
  intros Hk. induction segs as [|seg segs IH]; intro Hok.
  - simpl. split; [discriminate | tauto].
  - simpl in Hok. apply andb_true_iff in Hok as [Hseg Hok].
    specialize (IH Hok). cbn [flatten flat_map]. fold (flatten segs).
    destruct seg as [c | k']; simpl in Hseg; cbn [segment_text].
    + unfold is_brace in Hseg.
      apply negb_true_iff, orb_false_iff in Hseg as [Hc _].
      rewrite token_cons, (occurs_no_open _ [c]), <- token_cons, IH.
      * split; [now right | now intros [[=] | H]].
      * intros c' [<- | []]. exact Hc.
    + destruct (jsstring_eqb k' k) eqn:E.
      * apply jsstring_eqb_eq in E. subst k'. split; [now left|]. intros _.
        apply occurs_prefix, is_prefix_app.
      * assert (Hne : k' <> k).
        { intros ->. now rewrite jsstring_eqb_refl in E. }
        assert (Hopen : forall c, In c (k' ++ [Chars.rbrace; Chars.rbrace]) ->
                          cu_eqb c Chars.lbrace = false).
        { intros c Hin. apply in_app_or in Hin as [Hin | Hin].
          - rewrite brace_free_forall in Hseg. now apply Hseg.
          - destruct Hin as [<- | [<- | []]]; reflexivity. }
        assert (H0 : is_prefix (token k) (token k' ++ flatten segs) = false).
        { apply not_true_is_false. intro H.
          apply is_prefix_inv in H as [r H].
          now apply Hne, (@token_prefix_inj k' k (flatten segs) r). }
        assert (H1 : is_prefix (token k)
                       (Chars.lbrace :: (k' ++ [Chars.rbrace; Chars.rbrace])
                                        ++ flatten segs) = false).
        { rewrite token_cons.
          destruct (k' ++ [Chars.rbrace; Chars.rbrace]) as [|x w] eqn:Ew;
            [now destruct k'|].
          cbn [app is_prefix].
          rewrite (cu_eqb_sym Chars.lbrace x), (Hopen x (or_introl eq_refl)).
          now rewrite andb_false_r. }
        assert (Hocc : occurs (token k) (token k' ++ flatten segs)
                       = occurs (token k) (flatten segs)).
        { change (occurs (token k) (token k' ++ flatten segs))
            with (is_prefix (token k) (token k' ++ flatten segs)
                  || (is_prefix (token k)
                        (Chars.lbrace :: (k' ++ [Chars.rbrace; Chars.rbrace])
                                         ++ flatten segs)
                      || occurs (token k)
                           ((k' ++ [Chars.rbrace; Chars.rbrace]) ++ flatten segs))).
          rewrite H0, H1. cbn [orb]. rewrite (token_cons k).
          now apply occurs_no_open. }
        rewrite Hocc, IH.
        split; [now right | intros [[= H] | H]; [congruence | assumption]].
Qed.

(** Where its token does not occur, a key changes nothing, whatever the
    value. *)
Lemma replace_absent t v : forall s seen,
  t <> [] -> occurs t s = false ->
  Replace.replace_from (map cu_eqb t) v seen 0 s = s.
Proof.
  intros s seen Ht. revert seen.
  induction s as [|c s IH]; intros seen Hocc.
  - destruct t; [congruence | reflexivity].
  - simpl in Hocc. apply orb_false_iff in Hocc as [Hp Hocc].
    cbn [Replace.replace_from].
    destruct (Replace.match_prefix (map cu_eqb t) (c :: s)) as [[m r]|] eqn:M.
    + apply match_prefix_literal_inv in M. rewrite M, is_prefix_app in Hp.
      discriminate.
    + f_equal. now apply IH.
Qed.

Lemma fill_all_ok variables keys : forall segs,
  (forall key, In key keys -> brace_free (value_text variables key) = true) ->
  forallb segment_ok segs = true ->
  forallb segment_ok (fill_all variables keys segs) = true.
Proof.
  unfold fill_all. induction keys as [|key keys IH]; intros segs Hv Hok;
    [assumption|].
  simpl. apply IH.
  - intros k Hin. apply Hv. now right.
  - apply fill_ok; [|assumption]. apply Hv. now left.
Qed.

End OccursFacts.

Module RenderedFacts.

Import Templates Placeholders RenderFacts FillFacts LoopFacts OccursFacts.

Lemma plain_value_parts v :
  plain_value v = true -> brace_free v = true /\ dollar_free v = true.
Proof. unfold plain_value. apply andb_true_iff. Qed.

(** The tokens of a well-formed text after the loop. *)
Lemma tokens_after_fill variables keys segs :
  (forall key, In key keys ->
     plain_key key = true /\ plain_replacement variables key = true) ->
  forallb segment_ok segs = true ->
  (forall key, In key keys ->
     occurs (token key) (flatten (fill_all variables keys segs)) = false)
  /\ (forall k, brace_free k = true -> ~ In k keys ->
        occurs (token k) (flatten (fill_all variables keys segs))
        = occurs (token k) (flatten segs)).
Proof.
  intros Hkeys Hok.
  assert (Hok' : forallb segment_ok (fill_all variables keys segs) = true).
  { apply fill_all_ok; [|assumption].
    intros key Hin.
    now apply plain_value_parts, plain_replacement_value, Hkeys. }
  split.
  - intros key Hin. apply not_true_is_false. intro H.
    apply occurs_token in H;
      [|now apply plain_key_brace_free, Hkeys | assumption].
    apply PlaceholderFacts.fill_all_placeholders in H as [_ Hnot]. contradiction.
  - intros k Hk Hnot.
    apply eq_true_iff_eq.
    rewrite !occurs_token by assumption.
    rewrite PlaceholderFacts.fill_all_placeholders. tauto.
Qed.

(** A well-formed text without placeholders has no brace. *)
Lemma no_placeholder_no_brace segs :
  forallb segment_ok segs = true ->
  (forall k, ~ In (Placeholder k) segs) ->
  brace_free (flatten segs) = true.
Proof.
  induction segs as [|seg segs IH]; intros Hok Hno; [reflexivity|].
  simpl in Hok. apply andb_true_iff in Hok as [Hseg Hok].
  destruct seg as [c | k].
  - simpl in *. rewrite Hseg. apply IH; [assumption|].
    intros k Hin. apply (Hno k). now right.
  - exfalso. apply (Hno k). now left.
Qed.


Lemma assoc_In (A : Type) key (a : A) l : assoc key l = Some a -> In (key, a) l.
Proof.
  induction l as [|[k x] l IH]; [discriminate|]. simpl.
  destruct (jsstring_eqb key k) eqn:E.
  - apply jsstring_eqb_eq in E. intros [= ->]. left. now subst.
  - intro H. right. now apply IH.
Qed.

(** The registry: every entry has a non-empty name and well-formed
    texts. *)
Lemma registry_entry name t :
  assoc name templates = Some t ->
  truthy (JStr name) = true
  /\ well_formed (subject t) = true /\ well_formed (html t) = true.
Proof.
  intro H. apply assoc_In in H.
  destruct H as [[= <- <-] | [[= <- <-] | [[= <- <-] | [[= <- <-] | []]]]];
    repeat split; vm_compute; reflexivity.
Qed.

End RenderedFacts.

(** X9. Take a template whose braces all belong to placeholders
    [{{key}}] with brace-free keys, and a mapping in which every key is
    plain and every value converts to a plain text.  A key is plain when
    it holds none of [^ $ \ . * + ? ( ) [ | { }] and is not of the
    form of a quantifier's inside: a run of decimal digits, such a run
    followed by a comma, or two such runs separated by a comma.  A text
    is plain when it holds no brace and no [$].  Then rendering
    succeeds; the output holds no token of any key of the mapping, and
    for every other brace-free key the token is in the output exactly
    when it is in the template: placeholders that are not supplied
    stay. *)
Theorem render_tokens (t : Templates.template) (variables : list (jsstring * jsval)) :
  Placeholders.well_formed (Templates.subject t) = true ->
  Placeholders.well_formed (Templates.html t) = true ->
  (forall key, In key (object_keys variables) ->
     Placeholders.plain_key key = true
     /\ Placeholders.plain_replacement variables key = true) ->
  exists subject' html',
    Templates.render variables t = Some (Normal (subject', html'))
    /\ (forall key, In key (object_keys variables) ->
          Placeholders.occurs (Templates.token key) subject' = false
          /\ Placeholders.occurs (Templates.token key) html' = false)
    /\ (forall k, Placeholders.brace_free k = true ->
          ~ In k (object_keys variables) ->
          Placeholders.occurs (Templates.token k) subject'
          = Placeholders.occurs (Templates.token k) (Templates.subject t)
          /\ Placeholders.occurs (Templates.token k) html'
             = Placeholders.occurs (Templates.token k) (Templates.html t)).
Proof.
  intros Hs Hh Hkeys.
  apply FillFacts.well_formed_segments in Hs as (s1 & Hs1 & Es).
  apply FillFacts.well_formed_segments in Hh as (s2 & Hs2 & Eh).
  destruct (RenderedFacts.tokens_after_fill variables _ s1 Hkeys Hs1) as [A1 B1].
  destruct (RenderedFacts.tokens_after_fill variables _ s2 Hkeys Hs2) as [A2 B2].
  do 2 eexists. split.
  - unfold Templates.render. rewrite Es, Eh.
    apply (@LoopFacts.render_fill variables _ s1 s2 Hkeys Hs1 Hs2).
  - rewrite Es, Eh. split.
    + intros key Hin. split; [now apply A1 | now apply A2].
    + intros k Hk Hnot. split; [now apply B1 | now apply B2].
Qed.

Lemma render_tokens_witness :
  let variables := [(js "title", JStr (js "News")); (js "message", JNum (num "7" eq_refl))] in
  exists subject' html',
    Templates.render variables Templates.notification_template
    = Some (Normal (subject', html'))
    /\ (forall key, In key (object_keys variables) ->
          Placeholders.occurs (Templates.token key) subject' = false
          /\ Placeholders.occurs (Templates.token key) html' = false)
    /\ (forall k, Placeholders.brace_free k = true ->
          ~ In k (object_keys variables) ->
          Placeholders.occurs (Templates.token k) subject'
          = Placeholders.occurs (Templates.token k)
              (Templates.subject Templates.notification_template)
          /\ Placeholders.occurs (Templates.token k) html'
             = Placeholders.occurs (Templates.token k)
                 (Templates.html Templates.notification_template)).
Proof.
  intro variables.
  apply (@render_tokens Templates.notification_template variables).
  - reflexivity.
  - reflexivity.
  - intros key [<- | [<- | []]]; split; reflexivity.
Defined.

(** X10. With a template and a mapping as in X9 (braces only in
    placeholders; every key free of [^ $ \ . * + ? ( ) [ | { }] and
    not a run of digits, a run of digits followed by a comma, or two
    runs of digits separated by a comma; every value converting to a
    text with no brace and no [$]): when the mapping supplies every
    placeholder the template holds, the rendered subject and html have
    no brace left in them. *)
Theorem render_complete (t : Templates.template) (variables : list (jsstring * jsval)) :
  Placeholders.well_formed (Templates.subject t) = true ->
  Placeholders.well_formed (Templates.html t) = true ->
  (forall key, In key (object_keys variables) ->
     Placeholders.plain_key key = true
     /\ Placeholders.plain_replacement variables key = true) ->
  (forall k, Placeholders.brace_free k = true ->
     Placeholders.occurs (Templates.token k) (Templates.subject t) = true
     \/ Placeholders.occurs (Templates.token k) (Templates.html t) = true ->
     In k (object_keys variables)) ->
  exists subject' html',
    Templates.render variables t = Some (Normal (subject', html'))
    /\ Placeholders.brace_free subject' = true
    /\ Placeholders.brace_free html' = true.
Proof.
  intros Hs Hh Hkeys Hall.
  apply FillFacts.well_formed_segments in Hs as (s1 & Hs1 & Es).
  apply FillFacts.well_formed_segments in Hh as (s2 & Hs2 & Eh).
  assert (Hv : forall key, In key (object_keys variables) ->
             Placeholders.brace_free (Placeholders.value_text variables key) = true).
  { intros key Hin.
    now apply RenderedFacts.plain_value_parts, LoopFacts.plain_replacement_value,
      Hkeys. }
  assert (Hnone : forall segs, forallb Placeholders.segment_ok segs = true ->
            (forall k, Placeholders.brace_free k = true ->
               In (Placeholders.Placeholder k) segs -> In k (object_keys variables)) ->
            Placeholders.brace_free
              (Placeholders.flatten
                 (Placeholders.fill_all variables (object_keys variables) segs)) = true).
  { intros segs Hok Hin. apply RenderedFacts.no_placeholder_no_brace.
    - now apply OccursFacts.fill_all_ok.
    - intros k H. apply PlaceholderFacts.fill_all_placeholders in H as [H Hnot].
      apply Hnot, Hin; [|assumption].
      rewrite forallb_forall in Hok. apply (Hok _ H). }
  do 2 eexists. split; [|split].
  - unfold Templates.render. rewrite Es, Eh.
    apply (@LoopFacts.render_fill variables _ s1 s2 Hkeys Hs1 Hs2).
  - apply Hnone; [assumption|]. intros k Hk Hin. apply Hall; [assumption|].
    left. rewrite Es. now apply OccursFacts.occurs_token.
  - apply Hnone; [assumption|]. intros k Hk Hin. apply Hall; [assumption|].
    right. rewrite Eh. now apply OccursFacts.occurs_token.
Qed.

Module RenderCompleteFacts.

Import Templates Placeholders.

Lemma segments_sound s segs :
  segments s = Some segs ->
  forallb segment_ok segs = true /\ s = flatten segs.
Proof.
  unfold segments. intro H.
  destruct (scan s) as [[[| | |] segs']|] eqn:E; try discriminate.
  injection H as <-. apply (FillFacts.scan_sound _ E).
Qed.

Lemma placeholder_keys_In k segs :
  In (Placeholder k) segs -> In k (placeholder_keys segs).
Proof.
  intro H. apply in_flat_map. exists (Placeholder k). split; [assumption | now left].
Qed.

(** The tokens of brace-free keys found in a text, read off its
    segments. *)
Lemma occurs_keys s segs k :
  segments s = Some segs -> brace_free k = true ->
  occurs (token k) s = true -> In k (placeholder_keys segs).
Proof.
  intros H Hk Hocc. apply segments_sound in H as [Hok ->].
  apply placeholder_keys_In. now apply OccursFacts.occurs_token in Hocc.
Qed.

End RenderCompleteFacts.

Lemma render_complete_witness :
  let variables :=
    [(js "subject", JStr (js "Hi")); (js "title", JStr (js "T"));
     (js "message", JStr (js "M")); (js "senderName", JStr (js "S"))] in
  exists subject' html',
    Templates.render variables Templates.notification_template
    = Some (Normal (subject', html'))
    /\ Placeholders.brace_free subject' = true
    /\ Placeholders.brace_free html' = true.
Proof.
  intro variables.
  apply (@render_complete Templates.notification_template variables).
  - reflexivity.
  - reflexivity.
  - intros key [<- | [<- | [<- | [<- | []]]]]; split; reflexivity.
  - intros k Hk [H | H].
    + eapply RenderCompleteFacts.occurs_keys in H;
        [| vm_compute; reflexivity | exact Hk].
      vm_compute in H. vm_compute. tauto.
    + eapply RenderCompleteFacts.occurs_keys in H;
        [| vm_compute; reflexivity | exact Hk].
      vm_compute in H. vm_compute. tauto.
Defined.

(** X11. A plain key whose token occurs in neither the subject nor the
    html changes nothing, whatever text its value converts to: an unused
    variable is ignored.  Its value is converted all the same, so a
    value that cannot be converted to a string makes the substitution
    throw. *)
Theorem substitute_absent_token (variables : list (jsstring * jsval))
    (subject html key : jsstring) :
  Placeholders.plain_key key = true ->
  Placeholders.occurs (Templates.token key) subject = false ->
  Placeholders.occurs (Templates.token key) html = false ->
  (forall value, Templates.replacement variables key = Normal value ->
     Templates.substitute variables (Some (Normal (subject, html))) key
     = Some (Normal (subject, html)))
  /\ (forall e, Templates.replacement variables key = Throw e ->
        Templates.substitute variables (Some (Normal (subject, html))) key
        = Some (Throw e)).
Proof.
  intros Hk Hs Hh. unfold Templates.substitute, Replace.replace.
  rewrite (RenderFacts.compile_token _ Hk). split.
  - intros value ->.
    rewrite !OccursFacts.replace_absent; try assumption; reflexivity || discriminate.
  - now intros e ->.
Qed.

Lemma substitute_absent_token_witness :
  Templates.substitute [(js "nickname", JStr (js "$& and $'"))]
    (Some (Normal (Templates.subject Templates.welcome_template,
                   Templates.html Templates.welcome_template)))
    (js "nickname")
  = Some (Normal (Templates.subject Templates.welcome_template,
                  Templates.html Templates.welcome_template))
  /\ Templates.substitute [(js "nickname", unprintable)]
       (Some (Normal (Templates.subject Templates.welcome_template,
                      Templates.html Templates.welcome_template)))
       (js "nickname")
     = Some (Throw TypeError).
Proof.
  split.
  - apply (proj1 (@substitute_absent_token [(js "nickname", JStr (js "$& and $'"))]
                    (Templates.subject Templates.welcome_template)
                    (Templates.html Templates.welcome_template)
                    (js "nickname") eq_refl eq_refl eq_refl) (js "$& and $'")).
    reflexivity.
  - apply (proj2 (@substitute_absent_token [(js "nickname", unprintable)]
                    (Templates.subject Templates.welcome_template)
                    (Templates.html Templates.welcome_template)
                    (js "nickname") eq_refl eq_refl eq_refl) TypeError).
    reflexivity.
Defined.



(* ================================================================== *)
(** ** Templated send: the gates and the outcome *)

Module TemplateHandlerFacts.

Import Templates SendTemplateEmail.

Lemma mapping_expected variables :
  default_to (JObj []) variables = Expected.mapping variables.
Proof. reflexivity. Qed.

(** The send that ends the [try] block, once the client is built. *)
Lemma dispatch_expected env send req subject html t :
  createTransporter env (Expected.selector (service req)) = Normal t ->
  let m := {| mail_from := Expected.sender env (from req);
              mail_to := to req;
              mail_subject := subject;
              mail_text := JUndefined;
              mail_html := html;
              mail_attachments := JUndefined |} in
  dispatch env send req subject html
  = Normal
      (match send t 0 m with
       | Resolved info =>
           respond 200
             (TemplateSentBody (js "Template email sent successfully")
                (messageId info) (template req))
       | Rejected message => respond 500 (FailureBody failed (Message message))
       end,
       [CreateTransport t; SendMail t m]).
Proof.
  intros Ht m. unfold dispatch.
  rewrite SendBulkEmailFacts.selector_expected, Ht. cbn [bind].
  rewrite SendBulkEmailFacts.sender_expected. fold m. unfold caught.
  now destruct (send t 0 m).
Qed.

(** Whatever [dispatch] returns, it has sent nothing and answered 500,
    or sent one mail to [to]. *)
Lemma dispatch_outcomes env send req subject html :
  (exists e, dispatch env send req subject html = Throw e)
  \/ exists t m res,
       dispatch env send req subject html
       = Normal (res, [CreateTransport t; SendMail t m])
       /\ mail_to m = to req
       /\ status res = if is_rejected (send t 0 m) then 500 else 200.
Proof.
  destruct (createTransporter env (Expected.selector (service req))) as [t|e] eqn:Ht.
  - right. rewrite (dispatch_expected env send req subject html Ht).
    do 3 eexists. split; [reflexivity|]. split; [reflexivity|].
    now destruct (send t 0 _).
  - left. exists e. unfold dispatch.
    now rewrite SendBulkEmailFacts.selector_expected, Ht.
Qed.

Lemma inherited_name name :
  existsb (jsstring_eqb name) object_prototype_names = true ->
  get_property templates name = Inherited name.
Proof.
  intro H. apply existsb_exists in H as (x & Hin & E).
  apply RenderFacts.jsstring_eqb_eq in E. subst x.
  repeat (destruct Hin as [<- | Hin]; [reflexivity|]). destruct Hin.
Qed.

Lemma render_succeeds (t : Templates.template) variables :
  Placeholders.well_formed (subject t) = true ->
  Placeholders.well_formed (html t) = true ->
  (forall key, In key (object_keys variables) ->
     Placeholders.plain_key key = true
     /\ Placeholders.plain_replacement variables key = true) ->
  exists subject' html', render variables t = Some (Normal (subject', html')).
Proof.
  intros Hs Hh Hkeys.
  apply FillFacts.well_formed_segments in Hs as (s1 & Hs1 & Es).
  apply FillFacts.well_formed_segments in Hh as (s2 & Hs2 & Eh).
  do 2 eexists. unfold render. rewrite Es, Eh.
  apply (@LoopFacts.render_fill variables _ s1 s2 Hkeys Hs1 Hs2).
Qed.

End TemplateHandlerFacts.

(** X13. A templated send request with a falsy [to] or [template] is
    answered 400 with the missing-fields message; with both present and a
    [to] that fails validation it is answered 400 with the invalid
    recipient message.  Either way nothing is rendered, built or sent. *)
Theorem template_send_gates env send (req : SendTemplateEmail.request) :
  (truthy (SendTemplateEmail.to req) = false
   \/ truthy (SendTemplateEmail.template req) = false ->
   SendTemplateEmail.handler env send req
   = Some (respond 400 (ErrorBody (js "Missing required fields: to, template")), []))
  /\ (truthy (SendTemplateEmail.to req) = true ->
      truthy (SendTemplateEmail.template req) = true ->
      validateEmail (SendTemplateEmail.to req) = Normal false ->
      SendTemplateEmail.handler env send req
      = Some (respond 400 (ErrorBody (js "Invalid recipient email address")), [])).
Proof.
  unfold SendTemplateEmail.handler, SendTemplateEmail.attempt. split.
  - intros [-> | ->]; simpl; rewrite ?orb_true_r; reflexivity.
  - now intros -> -> ->.
Qed.

Lemma template_send_gates_witness :
  let base (to_ template_ : jsval) :=
    {| SendTemplateEmail.to := to_;
       SendTemplateEmail.template := template_;
       SendTemplateEmail.variables := JObj [(js "a.b", JStr (js "$1"))];
       SendTemplateEmail.service := JUndefined;
       SendTemplateEmail.from := JUndefined |} in
  let send : provider := fun _ _ _ => Rejected JNull in
  SendTemplateEmail.handler (fun _ => None) send (base (JStr (js "a@x.org")) (JStr []))
  = Some (respond 400 (ErrorBody (js "Missing required fields: to, template")), [])
  /\ SendTemplateEmail.handler (fun _ => None) send
       (base (JStr (js "nobody")) (JStr (js "welcome")))
     = Some (respond 400 (ErrorBody (js "Invalid recipient email address")), []).
Proof.
  intros base send. split.
  - apply (proj1 (template_send_gates (fun _ => None) send
                    (base (JStr (js "a@x.org")) (JStr [])))).
    right. reflexivity.
  - apply (proj2 (template_send_gates (fun _ => None) send
                    (base (JStr (js "nobody")) (JStr (js "welcome")))));
      reflexivity.
Defined.

(** X14. A request with a valid [to] that names a template of the
    registry, and whose variables (the empty object when the field is
    absent) have plain keys and values that convert to plain texts, is
    rendered and, once the client is built for its selector ([gmail]
    when [service] is absent), sent: one client, one mail to [to]
    carrying the rendered subject and html, no text and no attachments,
    from [from] when truthy, else [DEFAULT_FROM_EMAIL] when set and not
    empty, else [GMAIL_USER].  The answer is 200 with the provider's
    [messageId] and the template identifier of the request, or 500 with
    the provider's error message.  (A key is plain when it holds none of
    [^ $ \ . * + ? ( ) [ | { }] and is not a run of digits, a run of
    digits followed by a comma, or two runs of digits separated by a
    comma; a text is plain when it holds no brace and no [$].) *)
Theorem template_send_registry env send (req : SendTemplateEmail.request)
    (name : jsstring) (t : Templates.template)
    (variables : list (jsstring * jsval)) (client : transporter) :
  truthy (SendTemplateEmail.to req) = true ->
  validateEmail (SendTemplateEmail.to req) = Normal true ->
  SendTemplateEmail.template req = JStr name ->
  assoc name Templates.templates = Some t ->
  SendTemplateEmail.own_properties
    (Expected.mapping (SendTemplateEmail.variables req)) = Normal variables ->
  (forall key, In key (object_keys variables) ->
     Placeholders.plain_key key = true
     /\ Placeholders.plain_replacement variables key = true) ->
  createTransporter env (Expected.selector (SendTemplateEmail.service req))
  = Normal client ->
  exists subject' html',
    Templates.render variables t = Some (Normal (subject', html'))
    /\ let m := {| mail_from := Expected.sender env (SendTemplateEmail.from req);
                   mail_to := SendTemplateEmail.to req;
                   mail_subject := JStr subject';
                   mail_text := JUndefined;
                   mail_html := JStr html';
                   mail_attachments := JUndefined |} in
       SendTemplateEmail.handler env send req
       = Some (match send client 0 m with
               | Resolved info =>
                   respond 200
                     (TemplateSentBody (js "Template email sent successfully")
                        (messageId info) (JStr name))
               | Rejected message =>
                   respond 500
                     (FailureBody (js "Failed to send template email")
                        (Message message))
               end,
               [CreateTransport client; SendMail client m]).
Proof.
  intros Hto Hv Ht Ha Hvars Hkeys Hc.
  destruct (RenderedFacts.registry_entry _ Ha) as (Hname & Hws & Hwh).
  destruct (@TemplateHandlerFacts.render_succeeds t variables Hws Hwh Hkeys)
    as (subject' & html' & Hr).
  exists subject', html'. split; [exact Hr|]. intro m.
  unfold SendTemplateEmail.handler, SendTemplateEmail.attempt.
  rewrite Hto, Ht, Hname, Hv. cbn [negb orb to_string].
  unfold get_property. rewrite Ha.
  rewrite TemplateHandlerFacts.mapping_expected, Hvars, Hr.
  rewrite (TemplateHandlerFacts.dispatch_expected env send req
             (JStr subject') (JStr html') Hc).
  now rewrite Ht.
Qed.

Lemma template_send_registry_witness :
  let req :=
    {| SendTemplateEmail.to := JStr (js "a@x.org");
       SendTemplateEmail.template := JStr (js "welcome");
       SendTemplateEmail.variables :=
         JObj [(js "name", JStr (js "Ann")); (js "appName", JStr (js "Gallery"))];
       SendTemplateEmail.service := JUndefined;
       SendTemplateEmail.from := JUndefined |} in
  let variables := [(js "name", JStr (js "Ann")); (js "appName", JStr (js "Gallery"))] in
  let send : provider := fun _ _ _ =>
    Resolved {| messageId := JStr (js "<1@x.org>"); response := JStr (js "250 OK") |} in
  let env : environment :=
    fun name => if String.eqb name "GMAIL_USER" then Some (js "me@x.org") else None in
  let client := FromProfile (gmail_profile env) in
  exists subject' html',
    Templates.render variables Templates.welcome_template
    = Some (Normal (subject', html'))
    /\ let m := {| mail_from := JStr (js "me@x.org");
                   mail_to := JStr (js "a@x.org");
                   mail_subject := JStr subject';
                   mail_text := JUndefined;
                   mail_html := JStr html';
                   mail_attachments := JUndefined |} in
       SendTemplateEmail.handler env send req
       = Some (match send client 0 m with
               | Resolved info =>
                   respond 200
                     (TemplateSentBody (js "Template email sent successfully")
                        (messageId info) (JStr (js "welcome")))
               | Rejected message =>
                   respond 500
                     (FailureBody (js "Failed to send template email")
                        (Message message))
               end,
               [CreateTransport client; SendMail client m]).
Proof.
  intros req variables send env client.
  apply (@template_send_registry env send req (js "welcome")
           Templates.welcome_template variables client);
    try reflexivity.
  intros key [<- | [<- | []]]; split; reflexivity.
Defined.

Module InheritedFacts.

Import Templates SendTemplateEmail.

Lemma inherited_truthy name :
  existsb (jsstring_eqb name) object_prototype_names = true ->
  truthy (JStr name) = true.
Proof.
  intro H. apply existsb_exists in H as (x & Hin & E).
  apply RenderFacts.jsstring_eqb_eq in E. subst x.
  repeat (destruct Hin as [<- | Hin]; [reflexivity|]). destruct Hin.
Qed.

End InheritedFacts.

(** X15. When the template identifier names a property that the registry
    object inherits, and the request brings at least one variable whose
    first key is plain, reading [subject.replace] of the [undefined]
    subject throws; the handler answers 500 and nothing is built or
    sent. *)
Theorem template_send_inherited_throws env send (req : SendTemplateEmail.request)
    (name key : jsstring) (v : jsval) (rest : list (jsstring * jsval)) :
  truthy (SendTemplateEmail.to req) = true ->
  validateEmail (SendTemplateEmail.to req) = Normal true ->
  SendTemplateEmail.template req = JStr name ->
  existsb (jsstring_eqb name) object_prototype_names = true ->
  SendTemplateEmail.variables req = JObj ((key, v) :: rest) ->
  Placeholders.plain_key key = true ->
  SendTemplateEmail.handler env send req
  = Some (respond 500
            (FailureBody (js "Failed to send template email") TypeErrorMessage),
          []).
Proof.
  intros Hto Hv Ht Hin Hvars Hk.
  unfold SendTemplateEmail.handler, SendTemplateEmail.attempt.
  rewrite Hto, Ht, (InheritedFacts.inherited_truthy _ Hin), Hv, Hvars.
  cbn [negb orb to_string].
  rewrite (TemplateHandlerFacts.inherited_name _ Hin).
  cbn [default_to SendTemplateEmail.own_properties object_keys map fst].
  now rewrite (RenderFacts.compile_token _ Hk).
Qed.

Lemma template_send_inherited_throws_witness :
  let req :=
    {| SendTemplateEmail.to := JStr (js "a@x.org");
       SendTemplateEmail.template := JStr (js "toString");
       SendTemplateEmail.variables := JObj [(js "name", JStr (js "Ann"))];
       SendTemplateEmail.service := JUndefined;
       SendTemplateEmail.from := JUndefined |} in
  let send : provider := fun _ _ _ => Rejected JNull in
  SendTemplateEmail.handler (fun _ => None) send req
  = Some (respond 500
            (FailureBody (js "Failed to send template email") TypeErrorMessage),
          []).
Proof.
  intros req send.
  apply (@template_send_inherited_throws (fun _ => None) send req
           (js "toString") (js "name") (JStr (js "Ann")) []); reflexivity.
Defined.

(** X16. Whenever the templated send handler answers, it has either
    sent nothing, and the answer is 400 or 500, or sent exactly one
    mail, to the [to] of the request, which passed validation; the
    answer is then 200 if the provider accepted the mail and 500 if
    not. *)
Theorem template_send_outcomes env send (req : SendTemplateEmail.request)
    (res : http_response) (trace : list event) :
  SendTemplateEmail.handler env send req = Some (res, trace) ->
  (trace = [] /\ (status res = 400 \/ status res = 500))
  \/ (exists client m,
        trace = [CreateTransport client; SendMail client m]
        /\ mail_to m = SendTemplateEmail.to req
        /\ validateEmail (SendTemplateEmail.to req) = Normal true
        /\ status res = if is_rejected (send client 0 m) then 500 else 200).
Proof.
  unfold SendTemplateEmail.handler, SendTemplateEmail.attempt.
  destruct (negb (truthy (SendTemplateEmail.to req))
            || negb (truthy (SendTemplateEmail.template req)));
    [intros [= <- <-]; left; auto|].
  destruct (validateEmail (SendTemplateEmail.to req)) as [[|]|e] eqn:Hv;
    [|intros [= <- <-]; left; auto..].
  cbn [negb].
  assert (Hd : forall subject html,
             match SendTemplateEmail.dispatch env send req subject html with
             | Normal a => Some a
             | Throw e => Some (caught SendTemplateEmail.failed e [])
             end = Some (res, trace) ->
             (trace = [] /\ (status res = 400 \/ status res = 500))
             \/ exists client m,
                  trace = [CreateTransport client; SendMail client m]
                  /\ mail_to m = SendTemplateEmail.to req
                  /\ Normal true = Normal true :> completion bool
                  /\ status res = if is_rejected (send client 0 m) then 500 else 200).
  { intros subject html.
    destruct (TemplateHandlerFacts.dispatch_outcomes env send req subject html)
      as [(e & ->) | (t & m & r & -> & Hm & Hs)].
    - intros [= <- <-]. left. auto.
    - intros [= <- <-]. right. exists t, m. auto. }
  destruct (to_string (SendTemplateEmail.template req)) as [name|e];
    [|intros [= <- <-]; left; auto].
  destruct (get_property Templates.templates name) as [t | inherited |].
  - destruct (SendTemplateEmail.own_properties _) as [properties|e];
      [|intros [= <- <-]; left; auto].
    destruct (Templates.render properties t) as [[[subject html]|e]|];
      [|intros [= <- <-]; left; auto | discriminate].
    apply Hd.
  - destruct (SendTemplateEmail.own_properties _) as [properties|e];
      [|intros [= <- <-]; left; auto].
    destruct (object_keys properties) as [|key keys].
    + apply Hd.
    + destruct (Replace.compile _); [|discriminate].
      intros [= <- <-]. left. auto.
  - intros [= <- <-]. left. auto.
Qed.

Lemma template_send_outcomes_witness :
  let req :=
    {| SendTemplateEmail.to := JStr (js "a@x.org");
       SendTemplateEmail.template := JStr (js "nonexistent");
       SendTemplateEmail.variables := JUndefined;
       SendTemplateEmail.service := JUndefined;
       SendTemplateEmail.from := JUndefined |} in
  let send : provider := fun _ _ _ => Rejected JNull in
  let res :=
    respond 400
      (TemplateNotFoundBody (js "Template not found")
         [js "welcome"; js "art_submission"; js "reset_password"; js "notification"]) in
  (@nil event = [] /\ (status res = 400 \/ status res = 500))
  \/ (exists client m,
        [] = [CreateTransport client; SendMail client m]
        /\ mail_to m = SendTemplateEmail.to req
        /\ validateEmail (SendTemplateEmail.to req) = Normal true
        /\ status res = if is_rejected (send client 0 m) then 500 else 200).
Proof.
  intros req send res.
  apply (@template_send_outcomes (fun _ => None) send req res []). reflexivity.
Defined.

(* ================================================================== *)
(** ** The transport factory: selection and configuration *)

(** X17. [createTransporter] builds the client from the profile the
    selector names, for [gmail], [outlook] and [smtp]; from the gmail
    profile when the selector is [undefined] or [null]; and from the gmail
    profile for every string that names neither a profile nor a property
    inherited from [Object.prototype]. *)
Theorem createTransporter_selection env :
  createTransporter env (JStr (js "gmail")) = Normal (FromProfile (gmail_profile env))
  /\ createTransporter env (JStr (js "outlook"))
     = Normal (FromProfile (outlook_profile env))
  /\ createTransporter env (JStr (js "smtp")) = Normal (FromProfile (smtp_profile env))
  /\ createTransporter env JUndefined = Normal (FromProfile (gmail_profile env))
  /\ createTransporter env JNull = Normal (FromProfile (gmail_profile env))
  /\ (forall s,
        existsb (jsstring_eqb s) provider_names = false ->
        existsb (jsstring_eqb s) object_prototype_names = false ->
        createTransporter env (JStr s) = Normal (FromProfile (gmail_profile env))).
Proof.
  repeat split. apply TransporterFacts.fallback.
Qed.

Lemma createTransporter_selection_witness :
  createTransporter (fun _ => None) (JStr (js "unknown-service"))
  = Normal (FromProfile (gmail_profile (fun _ => None))).
Proof.
  apply (proj2 (proj2 (proj2 (proj2 (proj2
           (createTransporter_selection (fun _ => None))))))); reflexivity.
Defined.

(** X18. The smtp profile is read from the environment at each call: the
    port is [SMTP_PORT] when it is set and not empty and 587 otherwise,
    and the connection is secure exactly when [SMTP_SECURE] is the string
    [true]. *)
Theorem smtp_profile_settings env :
  exists host port secure a,
    createTransporter env (JStr (js "smtp"))
    = Normal (FromProfile (HostOptions host port secure a))
    /\ host = getenv env "SMTP_HOST"
    /\ port = match env "SMTP_PORT"%string with
              | Some (c :: p) => JStr (c :: p)
              | _ => JNum (num "587" eq_refl)
              end
    /\ (secure = true <-> env "SMTP_SECURE"%string = Some (js "true")).
Proof.
  do 4 eexists. split; [reflexivity|]. split; [reflexivity|]. split.
  - unfold getenv, js_or. now destruct (env "SMTP_PORT"%string) as [[|c p]|].
  - unfold getenv, is_true_string.
    destruct (env "SMTP_SECURE"%string) as [s|].
    + rewrite RenderFacts.jsstring_eqb_eq. split; [now intros -> | now intros [= ->]].
    + split; discriminate.
Qed.

Module UnknownTemplateFacts.

Lemma assoc_none (A : Type) key (l : list (jsstring * A)) :
  existsb (jsstring_eqb key) (object_keys l) = false -> assoc key l = None.
Proof.
  unfold object_keys. induction l as [|[k a] l IH]; [reflexivity|]. simpl.
  intro H. apply orb_false_iff in H as [-> H]. now apply IH.
Qed.

End UnknownTemplateFacts.

(** X19. A request with a valid [to] whose template identifier is a
    non-empty string that names neither a template of the registry nor a
    property inherited from [Object.prototype] is answered 400 with the
    four identifiers of the registry, in registry order; nothing is
    rendered, built or sent. *)
Theorem template_send_unknown env send (req : SendTemplateEmail.request)
    (name : jsstring) :
  truthy (SendTemplateEmail.to req) = true ->
  validateEmail (SendTemplateEmail.to req) = Normal true ->
  SendTemplateEmail.template req = JStr name -> name <> [] ->
  existsb (jsstring_eqb name) (object_keys Templates.templates) = false ->
  existsb (jsstring_eqb name) object_prototype_names = false ->
  SendTemplateEmail.handler env send req
  = Some (respond 400
            (TemplateNotFoundBody (js "Template not found")
               [js "welcome"; js "art_submission"; js "reset_password";
                js "notification"]),
          []).
Proof.
  intros Hto Hv Ht Hne Hreg Hproto.
  unfold SendTemplateEmail.handler, SendTemplateEmail.attempt.
  rewrite Hto, Ht, Hv. destruct name as [|c name]; [congruence|].
  cbn [truthy negb orb to_string]. unfold get_property.
  now rewrite (UnknownTemplateFacts.assoc_none _ _ Hreg), Hproto.
Qed.

Lemma template_send_unknown_witness :
  let req :=
    {| SendTemplateEmail.to := JStr (js "a@x.org");
       SendTemplateEmail.template := JStr (js "Welcome");
       SendTemplateEmail.variables := JObj [(js "name", JStr (js "Ann"))];
       SendTemplateEmail.service := JUndefined;
       SendTemplateEmail.from := JUndefined |} in
  let send : provider := fun _ _ _ => Rejected JNull in
  SendTemplateEmail.handler (fun _ => None) send req
  = Some (respond 400
            (TemplateNotFoundBody (js "Template not found")
               [js "welcome"; js "art_submission"; js "reset_password";
                js "notification"]),
          []).
Proof.
  intros req send.
  apply (@template_send_unknown (fun _ => None) send req (js "Welcome"));
    try reflexivity.
  discriminate.
Defined.

(* ================================================================== *)
(** ** Values that make the handlers throw *)

(** X20. A templated send request with a valid [to] that names a
    template of the registry and whose [variables] field is [null] is
    answered 500: the default [{}] replaces an absent field only, so
    [Object.keys(null)] throws, and nothing is rendered, built or
    sent. *)
Theorem template_send_null_variables env send (req : SendTemplateEmail.request)
    (name : jsstring) (t : Templates.template) :
  truthy (SendTemplateEmail.to req) = true ->
  validateEmail (SendTemplateEmail.to req) = Normal true ->
  SendTemplateEmail.template req = JStr name ->
  assoc name Templates.templates = Some t ->
  SendTemplateEmail.variables req = JNull ->
  SendTemplateEmail.handler env send req
  = Some (respond 500
            (FailureBody (js "Failed to send template email") TypeErrorMessage),
          []).
Proof.
  intros Hto Hv Ht Ha Hvars.
  destruct (RenderedFacts.registry_entry _ Ha) as (Hname & _).
  unfold SendTemplateEmail.handler, SendTemplateEmail.attempt.
  rewrite Hto, Ht, Hname, Hv, Hvars. cbn [negb orb to_string].
  unfold get_property. now rewrite Ha.
Qed.

Lemma template_send_null_variables_witness :
  let req :=
    {| SendTemplateEmail.to := JStr (js "a@x.org");
       SendTemplateEmail.template := JStr (js "welcome");
       SendTemplateEmail.variables := JNull;
       SendTemplateEmail.service := JUndefined;
       SendTemplateEmail.from := JUndefined |} in
  let send : provider := fun _ _ _ => Rejected JNull in
  SendTemplateEmail.handler (fun _ => None) send req
  = Some (respond 500
            (FailureBody (js "Failed to send template email") TypeErrorMessage),
          []).
Proof.
  intros req send.
  apply (@template_send_null_variables (fun _ => None) send req (js "welcome")
           Templates.welcome_template); reflexivity.
Defined.

(** X21. A single send request that passes validation and whose
    [service] is an object with an own [toString] property is answered
    500: the selector cannot be converted to a property name, so
    [createTransporter] throws, and no client is built and nothing is
    sent. *)
Theorem single_send_unprintable_service env send (req : SendEmail.request)
    (fields : list (jsstring * jsval)) :
  SingleGates.valid req = true ->
  SendEmail.service req = JObj fields ->
  has_own (js "toString") fields = true ->
  SendEmail.handler env send req
  = (respond 500 (FailureBody (js "Failed to send email") TypeErrorMessage), []).
Proof.
  intros Hv Hs Hown.
  apply (@SingleFacts.single_client_throws env send req TypeError Hv).
  rewrite Hs. unfold createTransporter. cbn [Expected.selector to_string].
  now rewrite Hown.
Qed.

Lemma single_send_unprintable_service_witness :
  let req :=
    {| SendEmail.to := JStr (js "a@x.org");
       SendEmail.subject := JStr (js "Hello");
       SendEmail.text := JStr (js "Hi there");
       SendEmail.html := JUndefined;
       SendEmail.from := JUndefined;
       SendEmail.service := JObj [(js "toString", JNum (num "0" eq_refl))];
       SendEmail.attachments := JUndefined |} in
  let send : provider := fun _ _ _ =>
    Resolved {| messageId := JStr (js "<1@x.org>"); response := JStr (js "250 OK") |} in
  SendEmail.handler (fun _ => None) send req
  = (respond 500 (FailureBody (js "Failed to send email") TypeErrorMessage), []).
Proof.
  intros req send.
  apply (@single_send_unprintable_service (fun _ => None) send req
           [(js "toString", JNum (num "0" eq_refl))]); reflexivity.
Defined.
